(** * opencode-autocommit: the turn-to-commit pipeline of
      [.opencode/plugins/autocommit.ts]

    A shallow embedding of the plugin (the version with the temporary
    summary session and the [initAutoCommit] tool) and the properties of
    its specification.

    Conventions of the embedding.
    - A JavaScript string is the list of its UTF-16 code units
      ([jsstring]); [length], [substring], [trim], [join] and [+] act on
      code units as they do in JavaScript.
    - A JavaScript number that the plugin uses as a length bound is an
      integer ([Z]).
    - Calls to the host ([client.session.*], the [$] shell, the settings
      file) append one [Effect] to a trace and take their answer from an
      environment record, so every behaviour of the host is covered by
      quantifying over the environment.
    - [client.app.log] is recorded in the trace.  In the definitions of
      the first part its promise resolves; module [FallibleLog] gives
      the same functions with a logger whose every entry may reject and
      with the write of the dedup marker recorded among the calls.  The
      two agree at a logger that resolves ([event_agrees]); what is
      said about errors getting out of a function and about the place
      of the marker write is said of [FallibleLog].
    - An [await]ed call that rejects and a [throw] are the completion
      [Throw]; [try]/[catch] is [try_catchW] or [try_catchM]. *)

From Stdlib Require Import List ZArith NArith Bool String Ascii Lia.
Import ListNotations.

(** ** JavaScript strings *)

Module JsString.

Definition code_unit := N.
Definition jsstring := list code_unit.

(** A source literal, one code unit per character. *)
Definition lit (s : string) : jsstring :=
  map N_of_ascii (list_ascii_of_string s).

Definition unit_eqb (a b : code_unit) : bool := N.eqb a b.

Fixpoint eqb (s t : jsstring) : bool :=
  match s, t with
  | [], [] => true
  | a :: s', b :: t' => unit_eqb a b && eqb s' t'
  | _, _ => false
  end.

(** [s.length] *)
Definition length (s : jsstring) : Z := Z.of_nat (List.length s).

(** ToIntegerOrInfinity followed by the clamp of [substring] to
    [0 .. len]. *)
Definition clamp (len : nat) (i : Z) : nat :=
  Nat.min (Z.to_nat i) len.

(** [s.substring(start, end)]: both indices are clamped, and swapped
    when [start] exceeds [end]. *)
Definition substring (s : jsstring) (start end_ : Z) : jsstring :=
  let a := clamp (List.length s) start in
  let b := clamp (List.length s) end_ in
  let from := Nat.min a b in
  let to := Nat.max a b in
  firstn (to - from) (skipn from s).

(** WhiteSpace and LineTerminator code points of ECMAScript, the ones
    [trim] strips. *)
Definition is_space (c : code_unit) : bool :=
  ((9 <=? c) && (c <=? 13) || (c =? 32) || (c =? 160) || (c =? 5760)
   || (8192 <=? c) && (c <=? 8202) || (c =? 8232) || (c =? 8233)
   || (c =? 8239) || (c =? 8287) || (c =? 12288) || (c =? 65279))%N.

Fixpoint trimStart (s : jsstring) : jsstring :=
  match s with
  | c :: s' => if is_space c then trimStart s' else s
  | [] => []
  end.

Definition trimEnd (s : jsstring) : jsstring := rev (trimStart (rev s)).

(** [s.trim()] *)
Definition trim (s : jsstring) : jsstring := trimEnd (trimStart s).

(** [parts.join(sep)] on an array of strings. *)
Fixpoint join (sep : jsstring) (l : list jsstring) : jsstring :=
  match l with
  | [] => []
  | x :: rest =>
      match rest with
      | [] => x
      | _ :: _ => x ++ sep ++ join sep rest
      end
  end.

Definition nl : jsstring := lit (String "010" EmptyString).

End JsString.

Import JsString.

(** ** Messages and turns *)

Inductive Role := user | assistant.

Definition role_eqb (a b : Role) : bool :=
  match a, b with
  | user, user | assistant, assistant => true
  | _, _ => false
  end.

(** A part is a text part ([type === "text"], with its [text]) or a part
    of any other type (tool call, step marker, ...). *)
Inductive Part :=
| TextPart (text : jsstring)
| OtherPart (type : string).

Record Info := {
  id : jsstring;
  role : Role;
  parentID : option jsstring
}.

Record Message := {
  info : Info;
  parts : list Part
}.

Record LastTurn := {
  userMessageID : jsstring;
  userPrompt : jsstring;
  assistantResponse : jsstring
}.

(** [parts.filter((p) => p.type === "text")] *)
Definition is_text (p : Part) : bool :=
  match p with TextPart _ => true | OtherPart _ => false end.

(** [.map((p) => p.text)] of the text parts. *)
Definition text_of (p : Part) : jsstring :=
  match p with TextPart t => t | OtherPart _ => [] end.

Definition textParts (ps : list Part) : list Part := filter is_text ps.

Definition is_user (m : Message) : bool := role_eqb (role (info m)) user.

(** [m.info.parentID === lastUserMsg.info.id] *)
Definition parent_is (anchor : jsstring) (m : Message) : bool :=
  match parentID (info m) with
  | Some p => JsString.eqb p anchor
  | None => false
  end.

Definition replies_to (anchor : jsstring) (m : Message) : bool :=
  role_eqb (role (info m)) assistant && parent_is anchor m.

(** The backward loop of [getLastTurn]: the first user message met from
    the end of the array. *)
Definition lastUserMsg (messages : list Message) : option Message :=
  find is_user (rev messages).

Definition getLastTurn (messages : list Message) : option LastTurn :=
  match lastUserMsg messages with
  | None => None
  | Some u =>
      let assistantMessages := filter (replies_to (id (info u))) messages in
      Some {|
        userMessageID := id (info u);
        userPrompt := join nl (map text_of (textParts (parts u)));
        assistantResponse :=
          join nl (map text_of
                     (flat_map (fun m => textParts (parts m)) assistantMessages))
      |}
  end.

(** ** Commit message *)

Definition ellipsis : jsstring := nl ++ lit "...".

Definition truncateCommitMessage (message : jsstring) (maxLength : Z) : jsstring :=
  if (JsString.length message <=? maxLength)%Z then message
  else
    let truncateLength := (maxLength - JsString.length ellipsis)%Z in
    substring message 0 truncateLength ++ ellipsis.

(** The template literal of the event handler. *)
Definition composeCommitMessage (summary : jsstring) (turn : LastTurn) : jsstring :=
  summary ++ nl ++ nl ++ lit "## User Prompt" ++ nl ++ userPrompt turn
          ++ nl ++ nl ++ lit "## LLM Response" ++ nl ++ assistantResponse turn.

(** ** Settings *)

(** [ZAutoCommitMode = z.enum(["disabled", "worktree", "enabled"])] *)
Inductive AutoCommitMode := disabled | worktree | enabled.

Definition mode_eqb (a b : AutoCommitMode) : bool :=
  match a, b with
  | disabled, disabled | worktree, worktree | enabled, enabled => true
  | _, _ => false
  end.

(** The in-memory settings object.  [commitModel = None] stands for both
    a missing key and a key holding [undefined]; the plugin never tells
    them apart. *)
Record AutoCommitSettings := {
  mode : AutoCommitMode;
  commitModel : option jsstring;
  maxCommitLength : Z
}.

(** An object with a subset of the settings keys ([Partial<...>], an
    object literal).  A field is [None] when the key is missing; for
    [commitModel], [Some None] is the key present and holding
    [undefined]. *)
Record PartialSettings := {
  p_mode : option AutoCommitMode;
  p_commitModel : option (option jsstring);
  p_maxCommitLength : option Z
}.

Definition overridden {A} (current : A) (update : option A) : A :=
  match update with Some v => v | None => current end.

(** [Object.assign(target, source)]: every own key of [source] is copied
    onto [target]; keys that [source] lacks keep their value. *)
Definition Object_assign (target : AutoCommitSettings) (source : PartialSettings)
  : AutoCommitSettings :=
  {| mode := overridden (mode target) (p_mode source);
     commitModel := overridden (commitModel target) (p_commitModel source);
     maxCommitLength := overridden (maxCommitLength target) (p_maxCommitLength source) |}.

(** [{ mode: "worktree", maxCommitLength: 10000, ...fileSettings }]; a
    [null] file layer spreads no key. *)
Definition defaults_with (fileSettings : option PartialSettings) : PartialSettings :=
  match fileSettings with
  | None =>
      {| p_mode := Some worktree; p_commitModel := None;
         p_maxCommitLength := Some 10000%Z |}
  | Some f =>
      {| p_mode := Some (overridden worktree (p_mode f));
         p_commitModel := p_commitModel f;
         p_maxCommitLength := Some (overridden 10000%Z (p_maxCommitLength f)) |}
  end.

(** The same object literal read as a complete settings object. *)
Definition settings_of (o : PartialSettings) : AutoCommitSettings :=
  Object_assign {| mode := worktree; commitModel := None; maxCommitLength := 10000 |} o.

(** ** Completions, effects and the two monads *)

Inductive Exn :=
| ZodError
| HostError
| Error (message : string)
| ErrorFrom (prefix : string) (cause : Exn).

Inductive Completion (A : Type) :=
| Normal (a : A)
| Throw (e : Exn).

Arguments Normal {A} a.
Arguments Throw {A} e.

Inductive LogLevel := LInfo | LError.

(** The calls that leave the plugin.  [AppLog] is [client.app.log] with
    its level and message (service and extra left out). *)
Inductive Effect :=
| AppLog (level : LogLevel) (message : string)
| FileText
| FileWrite (content : PartialSettings)
| GitRevParse
| GitStatus
| GitAddAll
| GitCommit (message : jsstring)
| SessionMessages (sessionID : jsstring)
| SessionCreate (title : string)
| SessionPrompt (session : jsstring) (text : jsstring)
| SessionDelete (session : jsstring).

(** Top-level functions of the file: a trace of calls and a completion. *)
Definition W (A : Type) : Type := list Effect * Completion A.

Definition retW {A} (a : A) : W A := ([], Normal a).

Definition bindW {A B} (m : W A) (k : A -> W B) : W B :=
  match m with
  | (t, Normal a) => let (t', r) := k a in (t ++ t', r)
  | (t, Throw e) => (t, Throw e)
  end.

Definition throwW {A} (e : Exn) : W A := ([], Throw e).

Definition try_catchW {A} (body : W A) (handler : Exn -> W A) : W A :=
  match body with
  | (t, Normal a) => (t, Normal a)
  | (t, Throw e) => let (t', r) := handler e in (t ++ t', r)
  end.

(** An awaited call to the host: recorded, answered by the environment. *)
Definition call {A} (e : Effect) (answer : Completion A) : W A := ([e], answer).

Definition log (level : LogLevel) (message : string) : W unit :=
  call (AppLog level message) (Normal tt).

Declare Scope w_scope.
Delimit Scope w_scope with W.
Notation "x <- m ;; k" := (bindW m (fun x => k))
  (at level 61, m at next level, right associativity) : w_scope.
Notation "m ;; k" := (bindW m (fun _ => k))
  (at level 61, right associativity) : w_scope.

(** The closure variables of one plugin instance. *)
Record PluginState := {
  settings : AutoCommitSettings;
  lastCommittedTurnID : option jsstring
}.

(** Code of the plugin closure: it also reads and writes [PluginState];
    what it wrote before a [throw] stays written. *)
Definition M (A : Type) : Type := PluginState -> PluginState * W A.

Definition retM {A} (a : A) : M A := fun st => (st, retW a).

Definition bindM {A B} (m : M A) (k : A -> M B) : M B :=
  fun st =>
    match m st with
    | (st1, (t, Normal a)) =>
        match k a st1 with (st2, (t', r)) => (st2, (t ++ t', r)) end
    | (st1, (t, Throw e)) => (st1, (t, Throw e))
    end.

Definition throwM {A} (e : Exn) : M A := fun st => (st, throwW e).

Definition try_catchM {A} (body : M A) (handler : Exn -> M A) : M A :=
  fun st =>
    match body st with
    | (st1, (t, Normal a)) => (st1, (t, Normal a))
    | (st1, (t, Throw e)) =>
        match handler e st1 with (st2, (t', r)) => (st2, (t ++ t', r)) end
    end.

Definition lift {A} (w : W A) : M A := fun st => (st, w).

Definition get_settings : M AutoCommitSettings :=
  fun st => (st, retW (settings st)).

Definition set_settings (s : AutoCommitSettings) : M unit :=
  fun st => ({| settings := s; lastCommittedTurnID := lastCommittedTurnID st |}, retW tt).

Definition get_lastCommittedTurnID : M (option jsstring) :=
  fun st => (st, retW (lastCommittedTurnID st)).

Definition set_lastCommittedTurnID (i : jsstring) : M unit :=
  fun st => ({| settings := settings st; lastCommittedTurnID := Some i |}, retW tt).

Declare Scope m_scope.
Delimit Scope m_scope with M.
Notation "x <- m ;; k" := (bindM m (fun x => k))
  (at level 61, m at next level, right associativity) : m_scope.
Notation "m ;; k" := (bindM m (fun _ => k))
  (at level 61, right associativity) : m_scope.

(** ** The settings file *)

(** A value met under a key of the parsed YAML document. *)
Inductive YamlValue :=
| YString (s : jsstring)
| YNumber (n : Z)
| YOther.

(** What [yaml.parse] returns: a mapping, of which only the three keys of
    the schema matter, or anything else (scalar, sequence, null). *)
Inductive YamlDoc :=
| YMap (mode commitModel maxCommitLength : option YamlValue)
| YNotMap.

(** [ZAutoCommitMode.parse] *)
Definition ZAutoCommitMode_parse (s : jsstring) : Completion AutoCommitMode :=
  if JsString.eqb s (lit "disabled") then Normal disabled
  else if JsString.eqb s (lit "worktree") then Normal worktree
  else if JsString.eqb s (lit "enabled") then Normal enabled
  else Throw ZodError.

Definition parse_optional {A} (parse : YamlValue -> Completion A)
  (v : option YamlValue) : Completion (option A) :=
  match v with
  | None => Normal None
  | Some y =>
      match parse y with
      | Normal a => Normal (Some a)
      | Throw e => Throw e
      end
  end.

Definition parse_mode (y : YamlValue) : Completion AutoCommitMode :=
  match y with
  | YString s => ZAutoCommitMode_parse s
  | _ => Throw ZodError
  end.

(** [z.string()] *)
Definition parse_string (y : YamlValue) : Completion jsstring :=
  match y with
  | YString s => Normal s
  | _ => Throw ZodError
  end.

(** [z.number().min(100)] *)
Definition parse_maxCommitLength (y : YamlValue) : Completion Z :=
  match y with
  | YNumber n => if (100 <=? n)%Z then Normal n else Throw ZodError
  | _ => Throw ZodError
  end.

(** [ZAutoCommitSettings.partial().parse]: every key is optional, a key
    that is present must satisfy its schema, unknown keys are dropped. *)
Definition ZAutoCommitSettings_partial_parse (doc : YamlDoc)
  : Completion PartialSettings :=
  match doc with
  | YNotMap => Throw ZodError
  | YMap m c l =>
      match parse_optional parse_mode m,
            parse_optional parse_string c,
            parse_optional parse_maxCommitLength l with
      | Normal m', Normal c', Normal l' =>
          Normal {| p_mode := m';
                    p_commitModel := option_map Some c';
                    p_maxCommitLength := l' |}
      | _, _, _ => Throw ZodError
      end
  end.

(** ** The host *)

(** The answers of the host during one tool call or one event.
    [settingsFile] is [file.text()] followed by [yaml.parse]; the
    [data] of a client response may be missing. *)
Record Host := {
  settingsFile : Completion YamlDoc;
  fileWrite : Completion unit;
  gitToplevel : Completion jsstring;
  gitStatus : Completion jsstring;
  gitAdd : Completion unit;
  gitCommit : Completion unit;
  sessionMessages : Completion (option (list Message));
  sessionCreate : Completion (option jsstring);
  sessionPrompt : Completion (option (list Part));
  sessionDelete : Completion unit
}.

(** The plugin input: [directory] and [worktree]. *)
Record Context := {
  directory : jsstring;
  ctx_worktree : jsstring
}.

Definition liftC {A} (c : Completion A) : W A := ([], c).

Definition loadSettingsFromFile (h : Host) : W (option PartialSettings) :=
  try_catchW
    (parsed <- call FileText (settingsFile h) ;;
     settings <- liftC (ZAutoCommitSettings_partial_parse parsed) ;;
     log LInfo "Loaded settings from file" ;;
     retW (Some settings))%W
    (fun _ =>
       (log LError "Failed to load settings file" ;;
        retW None)%W).

(** ** Summary generation *)

Definition summaryPrompt (turn : LastTurn) : jsstring :=
  lit "Generate a one-line commit message (max 50 characters) for this turn."
  ++ nl ++ nl ++ lit "User prompt: " ++ userPrompt turn
  ++ nl ++ nl ++ lit "LLM response: " ++ assistantResponse turn
  ++ nl ++ nl ++ lit "Return ONLY the commit message, nothing else.".

(** [result.data?.parts.filter(...)] then
    [textParts?.map((p) => p.text).join("\n").trim()]: [None] is
    [undefined]. *)
Definition summaryText (data : option (list Part)) : option jsstring :=
  option_map (fun ps => trim (join nl (map text_of (textParts ps)))) data.

(** [!summary] *)
Definition falsy (summary : option jsstring) : bool :=
  match summary with
  | None | Some [] => true
  | Some (_ :: _) => false
  end.

(** [settings] is read for the first log entry only
    ([extra: { commitModel }]). *)
Definition generateCommitSummary (h : Host) (turn : LastTurn)
  (settings : AutoCommitSettings) : W jsstring :=
  (log LInfo "Generating commit summary" ;;
   let prompt := summaryPrompt turn in
   try_catchW
     (tempSession <- call (SessionCreate "temp-commit-summary") (sessionCreate h) ;;
      match tempSession with
      | None => throwW (Error "Failed to create temporary session")
      | Some session =>
          result <- call (SessionPrompt session prompt) (sessionPrompt h) ;;
          let summary := summaryText result in
          if falsy summary then
            throwW (Error "No text response from commit summary prompt")
          else
            call (SessionDelete session) (sessionDelete h) ;;
            log LInfo "Commit summary generated" ;;
            retW (match summary with Some s => s | None => [] end)
      end)
     (fun _ =>
        log LError "Failed to generate commit summary using temporary session" ;;
        retW (lit "Auto-commit")))%W.

(** ** Repository probes and the commit *)

Definition isWorktree (h : Host) (directory : jsstring) : W bool :=
  try_catchW
    (stdout <- call GitRevParse (gitToplevel h) ;;
     let gitRoot := trim stdout in
     retW (negb (JsString.eqb gitRoot directory)))%W
    (fun _ => retW false).

Definition hasChanges (h : Host) : W bool :=
  try_catchW
    (stdout <- call GitStatus (gitStatus h) ;;
     retW (0 <? JsString.length (trim stdout))%Z)%W
    (fun _ => retW false).

(** [makeCommit]: the [catch] of the first [try] returns [false]; when
    the first [try] falls through ([staged]), the second one decides. *)
Definition makeCommit (h : Host) (message : jsstring) : W bool :=
  (staged <-
     try_catchW
       (log LInfo "Staging all changes" ;;
        call GitAddAll (gitAdd h) ;;
        log LInfo "Creating commit" ;;
        retW true)
       (fun _ =>
          log LError "Failed to stage changes" ;;
          retW false) ;;
   if negb staged then retW false
   else
     try_catchW
       (call (GitCommit message) (gitCommit h) ;;
        log LInfo "Commit created successfully" ;;
        retW true)
       (fun _ =>
          log LError "Failed to commit changes" ;;
          retW false))%W.

(** ** The plugin instance *)

(** Start of [AutoCommitPlugin]: the closure variables, and the trace
    of loading the settings file. *)
Definition AutoCommitPlugin (h : Host) : list Effect * PluginState :=
  match loadSettingsFromFile h with
  | (t, Normal fileSettings) =>
      (t, {| settings := settings_of (defaults_with fileSettings);
             lastCommittedTurnID := None |})
  | (t, Throw _) =>
      (t, {| settings := settings_of (defaults_with None);
             lastCommittedTurnID := None |})
  end.

(** Arguments of [setAutoCommitSettings] and [initAutoCommit]; [None] is
    an argument left out. *)
Record ToolArgs := {
  arg_mode : option jsstring;
  arg_commitModel : option jsstring;
  arg_maxCommitLength : option Z
}.

(** [s || undefined] on a string. *)
Definition or_undefined (s : jsstring) : option jsstring :=
  match s with [] => None | _ :: _ => Some s end.

(** The tools return [JSON.stringify(settings, null, 2)]; the settings
    object stands for its rendering. *)
Definition getSettingsTool : M AutoCommitSettings := get_settings.

Definition setSettingsTool (args : ToolArgs) : M AutoCommitSettings :=
  try_catchM
    (update_mode <-
       match arg_mode args with
       | Some m => (v <- lift (liftC (ZAutoCommitMode_parse m)) ;; retM (Some v))
       | None => retM None
       end ;;
     let update :=
       {| p_mode := update_mode;
          p_commitModel := option_map or_undefined (arg_commitModel args);
          p_maxCommitLength := arg_maxCommitLength args |} in
     current <- get_settings ;;
     set_settings (Object_assign current update) ;;
     get_settings)%M
    (fun error => throwM (ErrorFrom "Failed to update settings: " error)).

Definition resetSettingsTool (h : Host) : M AutoCommitSettings :=
  try_catchM
    (fileSettings <- lift (loadSettingsFromFile h) ;;
     let defaults := defaults_with fileSettings in
     current <- get_settings ;;
     set_settings (Object_assign current defaults) ;;
     get_settings)%M
    (fun error => throwM (ErrorFrom "Failed to reset settings: " error)).

Definition initTool (h : Host) (args : ToolArgs) : M PartialSettings :=
  try_catchM
    (new_mode <-
       match arg_mode args with
       | Some (c :: m) => lift (liftC (ZAutoCommitMode_parse (c :: m)))
       | _ => retM worktree
       end ;;
     let newSettings :=
       {| p_mode := Some new_mode;
          p_commitModel :=
            match arg_commitModel args with
            | Some (c :: m) => Some (Some (c :: m))
            | _ => None
            end;
          p_maxCommitLength := Some (overridden 10000%Z (arg_maxCommitLength args)) |} in
     lift (call (FileWrite newSettings) (fileWrite h)) ;;
     lift (log LInfo "Initialized auto-commit settings file") ;;
     retM newSettings)%M
    (fun error =>
       (lift (log LError "Failed to initialize settings file") ;;
        throwM (ErrorFrom "Failed to initialize: " error))%M).

Inductive Event :=
| session_idle (sessionID : jsstring)
| other_event (type : string).

(** [turn.userMessageID === lastCommittedTurnID] *)
Definition same_turn (i : jsstring) (last : option jsstring) : bool :=
  match last with
  | Some l => JsString.eqb i l
  | None => false
  end.

(** The commit pipeline of the handler, from the change check on. *)
Definition commitTurn (h : Host) (turn : LastTurn) : M unit :=
  (hasUncommittedChanges <- lift (hasChanges h) ;;
   if negb hasUncommittedChanges then
     lift (log LInfo "No changes to commit")
   else
     lift (log LInfo "Found uncommitted changes, generating commit summary") ;;
     try_catchM
       (s <- get_settings ;;
        summary <- lift (generateCommitSummary h turn s) ;;
        let commitMessage := composeCommitMessage summary turn in
        lift (log LInfo "Created commit message") ;;
        s' <- get_settings ;;
        let truncatedMessage :=
          truncateCommitMessage commitMessage (maxCommitLength s') in
        success <- lift (makeCommit h truncatedMessage) ;;
        if success then lift (log LInfo "Committed changes successfully")
        else retM tt)
       (fun _ => lift (log LError "Error during auto-commit")))%M.

(** [response.data ?? []] *)
Definition data_or_empty (data : option (list Message)) : list Message :=
  match data with Some messages => messages | None => [] end.

(** The [event] hook. *)
Definition event (ctx : Context) (h : Host) (ev : Event) : M unit :=
  match ev with
  | other_event _ => retM tt
  | session_idle sessionID =>
      (lift (log LInfo "Session idle event received") ;;
       s <- get_settings ;;
       if mode_eqb (mode s) disabled then
         lift (log LInfo "Auto-commit disabled")
       else
         isInWorktree <- lift (isWorktree h (ctx_worktree ctx)) ;;
         lift (log LInfo "Checked if in worktree") ;;
         s1 <- get_settings ;;
         if mode_eqb (mode s1) worktree && negb isInWorktree then
           lift (log LInfo "Not in worktree, skipping commit")
         else
           lift (log LInfo "Fetching session messages") ;;
           response <- lift (call (SessionMessages sessionID) (sessionMessages h)) ;;
           let messages := data_or_empty response in
           match getLastTurn messages with
           | None => lift (log LInfo "No turn found in messages")
           | Some turn =>
               last <- get_lastCommittedTurnID ;;
               if same_turn (userMessageID turn) last then
                 lift (log LInfo "Turn already committed, skipping")
               else
                 set_lastCommittedTurnID (userMessageID turn) ;;
                 lift (log LInfo "Processing new turn") ;;
                 commitTurn h turn
           end)%M
  end.

(** One interaction of the host with the plugin instance. *)
Inductive Call :=
| call_get
| call_set (args : ToolArgs)
| call_reset (h : Host)
| call_init (h : Host) (args : ToolArgs)
| call_event (h : Host) (ev : Event).

Definition state_after {A} (r : PluginState * W A) : PluginState := fst r.
Definition trace_of {A} (r : PluginState * W A) : list Effect := fst (snd r).
Definition completion_of {A} (r : PluginState * W A) : Completion A := snd (snd r).

Definition step (ctx : Context) (st : PluginState) (c : Call) : PluginState :=
  match c with
  | call_get => state_after (getSettingsTool st)
  | call_set args => state_after (setSettingsTool args st)
  | call_reset h => state_after (resetSettingsTool h st)
  | call_init h args => state_after (initTool h args st)
  | call_event h ev => state_after (event ctx h ev st)
  end.

(** The state after a sequence of interactions. *)
Definition run (ctx : Context) (st : PluginState) (calls : list Call) : PluginState :=
  fold_left (step ctx) calls st.

(** ** More of JavaScript: [slice], [split], [String(n)] *)

(** A relative index of [slice]: negative indices count from the end,
    and all are clamped to [0 .. len]. *)
Definition relative_index (len : nat) (i : Z) : nat :=
  if (i <? 0)%Z then Z.to_nat (Z.max (Z.of_nat len + i) 0)
  else Nat.min (Z.to_nat i) len.

(** [s.slice(start, end)] on a string or an array; [None] is an [end]
    left out. *)
Definition slice {A : Type} (l : list A) (start : Z) (end_ : option Z) : list A :=
  let from := relative_index (List.length l) start in
  let to := match end_ with
            | Some e => relative_index (List.length l) e
            | None => List.length l
            end in
  firstn (to - from) (skipn from l).

(** [s.split(sep)] for a separator of one code unit: the pieces between
    the separators, at least one. *)
Fixpoint split (sep : code_unit) (s : jsstring) : list jsstring :=
  match s with
  | [] => [[]]
  | c :: s' =>
      if unit_eqb c sep then [] :: split sep s'
      else
        match split sep s' with
        | piece :: pieces => (c :: piece) :: pieces
        | [] => [[c]]
        end
  end.

Fixpoint digits (u : Decimal.uint) : jsstring :=
  match u with
  | Decimal.Nil => []
  | Decimal.D0 u' => 48%N :: digits u'
  | Decimal.D1 u' => 49%N :: digits u'
  | Decimal.D2 u' => 50%N :: digits u'
  | Decimal.D3 u' => 51%N :: digits u'
  | Decimal.D4 u' => 52%N :: digits u'
  | Decimal.D5 u' => 53%N :: digits u'
  | Decimal.D6 u' => 54%N :: digits u'
  | Decimal.D7 u' => 55%N :: digits u'
  | Decimal.D8 u' => 56%N :: digits u'
  | Decimal.D9 u' => 57%N :: digits u'
  end.

(** A length in a template literal: its decimal digits. *)
Definition String_of_length (n : nat) : jsstring := digits (Nat.to_uint n).

(** ** The change summary of the design notes

    The functions of the section "Core Implementation" of the design
    notes kept in the plugin file: porcelain parsing and the summary of
    the files changed. *)

Module DesignNotes.

Inductive FileStatus := added | modified | deleted | renamed | untracked.

Definition status_eqb (a b : FileStatus) : bool :=
  match a, b with
  | added, added | modified, modified | deleted, deleted
  | renamed, renamed | untracked, untracked => true
  | _, _ => false
  end.

Record GitFile := {
  path : jsstring;
  status : FileStatus
}.

Record GitStatus := {
  hasChanges : bool;
  files : list GitFile
}.

(** [statusMap[statusCode]]; [None] is a code that the map lacks. *)
Definition statusMap (statusCode : jsstring) : option FileStatus :=
  if JsString.eqb statusCode (lit "??") then Some untracked
  else if JsString.eqb statusCode (lit "A ") then Some added
  else if JsString.eqb statusCode (lit "AM") then Some added
  else if JsString.eqb statusCode (lit "M ") then Some modified
  else if JsString.eqb statusCode (lit "MM") then Some modified
  else if JsString.eqb statusCode (lit " M") then Some modified
  else if JsString.eqb statusCode (lit "D ") then Some deleted
  else if JsString.eqb statusCode (lit " D") then Some deleted
  else if JsString.eqb statusCode (lit "R ") then Some renamed
  else if JsString.eqb statusCode (lit "RM") then Some renamed
  else None.

(** Typed [GitFile | null] in the source. *)
Definition parseGitStatusLine (line : jsstring) : option GitFile :=
  let statusCode := slice line 0 (Some 2%Z) in
  let path := slice line 3 None in
  let status := match statusMap statusCode with
                | Some s => s
                | None => modified
                end in
  Some {| path := path; status := status |}.

(** [.map(parseGitStatusLine).filter((f) => f !== null)] *)
Fixpoint parsed_files (lines : list jsstring) : list GitFile :=
  match lines with
  | [] => []
  | line :: rest =>
      match parseGitStatusLine line with
      | Some f => f :: parsed_files rest
      | None => parsed_files rest
      end
  end.

(** [checkForChanges] on the answer of [git status --porcelain]; the
    call is not guarded, so a rejection goes to the caller. *)
Definition checkForChanges (output : Completion jsstring) : Completion GitStatus :=
  match output with
  | Throw e => Throw e
  | Normal text =>
      match trim text with
      | [] => Normal {| hasChanges := false; files := [] |}
      | _ :: _ =>
          let files := parsed_files (split 10%N (trim text)) in
          Normal {| hasChanges := (0 <? List.length files)%nat; files := files |}
      end
  end.

(** The template [verb n file] with an [s] added for [n > 1]. *)
Definition count_phrase (verb : string) (n : nat) : jsstring :=
  lit verb ++ lit " " ++ String_of_length n ++ lit " file"
  ++ (if (1 <? n)%nat then lit "s" else []).

Definition count_status (keep : FileStatus -> bool) (fs : list GitFile) : nat :=
  List.length (filter (fun f => keep (status f)) fs).

Definition generateSummary (fs : list GitFile) : jsstring :=
  match fs with
  | [] => lit "no changes"
  | _ :: _ =>
      let n_added :=
        count_status (fun s => status_eqb s added || status_eqb s untracked) fs in
      let n_modified := count_status (fun s => status_eqb s modified) fs in
      let n_deleted := count_status (fun s => status_eqb s deleted) fs in
      let n_renamed := count_status (fun s => status_eqb s renamed) fs in
      let phrase verb n :=
        if (0 <? n)%nat then [count_phrase verb n] else [] in
      join (lit ", ")
        (phrase "modified"%string n_modified ++ phrase "added"%string n_added
         ++ phrase "deleted"%string n_deleted ++ phrase "renamed"%string n_renamed)
  end.

End DesignNotes.


(** ** Vocabulary of the statements *)

(** The turn that the session query of the host leads to, if any. *)
Definition latestTurn (h : Host) : option LastTurn :=
  match sessionMessages h with
  | Normal response => getLastTurn (data_or_empty response)
  | Throw _ => None
  end.

(** The handler gets past the mode gate. *)
Definition passes_gate (ctx : Context) (h : Host) (st : PluginState) : Prop :=
  match mode (settings st) with
  | disabled => False
  | worktree => snd (isWorktree h (ctx_worktree ctx)) = Normal true
  | enabled => True
  end.

(** The handler gets as far as generating a summary for [turn]. *)
Definition reaches_summary (ctx : Context) (h : Host) (st : PluginState)
  (turn : LastTurn) : Prop :=
  passes_gate ctx h st /\
  latestTurn h = Some turn /\
  same_turn (userMessageID turn) (lastCommittedTurnID st) = false /\
  snd (hasChanges h) = Normal true.

(** The ways in which the summary delegate fails. *)
Inductive delegate_fails (h : Host) : Prop :=
| create_rejects (e : Exn) :
    sessionCreate h = Throw e -> delegate_fails h
| create_without_data :
    sessionCreate h = Normal None -> delegate_fails h
| prompt_rejects (session : jsstring) (e : Exn) :
    sessionCreate h = Normal (Some session) ->
    sessionPrompt h = Throw e -> delegate_fails h
| prompt_without_text (session : jsstring) (data : option (list Part)) :
    sessionCreate h = Normal (Some session) ->
    sessionPrompt h = Normal data ->
    falsy (summaryText data) = true -> delegate_fails h
| delete_rejects (session : jsstring) (e : Exn) :
    sessionCreate h = Normal (Some session) ->
    sessionDelete h = Throw e -> delegate_fails h.

(** The calls of the commit pipeline proper: change check, summary
    session, staging and commit. *)
Definition is_pipeline_call (e : Effect) : bool :=
  match e with
  | GitStatus | GitAddAll | GitCommit _
  | SessionCreate _ | SessionPrompt _ _ | SessionDelete _ => true
  | _ => false
  end.

Definition is_commit_attempt (e : Effect) : bool :=
  match e with GitAddAll => true | _ => false end.

(** Number of commit attempts ([makeCommit] entered) in a trace. *)
Definition commit_attempts (t : list Effect) : nat :=
  List.length (filter is_commit_attempt t).

(** No call of the commit pipeline in a trace: the run is a skip. *)
Definition skips (t : list Effect) : Prop :=
  forallb (fun e => negb (is_pipeline_call e)) t = true.

(** The bound of the schema on the in-memory settings; the mode is in
    the enumeration by its type. *)
Definition settings_ok (s : AutoCommitSettings) : Prop :=
  (100 <= maxCommitLength s)%Z.

(** A call that does not hand [setAutoCommitSettings] a
    [maxCommitLength] below the bound. *)
Definition respects_bound (c : Call) : Prop :=
  match c with
  | call_set args =>
      match arg_maxCommitLength args with
      | Some n => (100 <= n)%Z
      | None => True
      end
  | _ => True
  end.

(** The dedup claim read as a permanent record: once an event has left
    the marker on the id of a turn, no later event of the instance runs
    the commit pipeline for a turn with that id. *)
Definition never_reprocessed : Prop :=
  forall (ctx : Context) (st : PluginState) (h1 h2 : Host)
         (between : list (Host * jsstring)) (sid1 sid2 : jsstring)
         (turn : LastTurn),
    let st1 := state_after (event ctx h1 (session_idle sid1) st) in
    let st2 := run ctx st1
                 (map (fun hs => call_event (fst hs) (session_idle (snd hs)))
                      between) in
    lastCommittedTurnID st1 = Some (userMessageID turn) ->
    latestTurn h2 = Some turn ->
    skips (trace_of (event ctx h2 (session_idle sid2) st2)).

(** ** What the specification says of the assistant response

    The specification joins the text parts of each replying assistant
    message first and then joins the per-message strings; these two
    definitions follow its words, next to [getLastTurn], which follows
    the code. *)

Definition messageText (m : Message) : jsstring :=
  join nl (map text_of (textParts (parts m))).

Definition assistantResponse_spec (anchor : jsstring) (messages : list Message)
  : jsstring :=
  join nl (map messageText (filter (replies_to anchor) messages)).

(** A message with at least one text part. *)
Definition has_text (m : Message) : bool := existsb is_text (parts m).

(** ** The plugin with a logger that may reject

    Every [await client.app.log(...)] of the source can reject, the ones
    outside a [try] and the ones inside a [catch] block included.  The
    definitions above fix the answer of the logger to "resolved"; the
    ones of this module take it from a [Logger], one answer per log
    entry, and are otherwise the same functions.  The closure code also
    records the write of [lastCommittedTurnID] in its trace, so that the
    place of the write among the calls can be stated. *)

Module FallibleLog.

(** The answer of [client.app.log] to an entry, by level and message. *)
Definition Logger : Type := LogLevel -> string -> Completion unit.

Definition log (logger : Logger) (level : LogLevel) (message : string) : W unit :=
  call (AppLog level message) (logger level message).

Definition loadSettingsFromFile (logger : Logger) (h : Host)
  : W (option PartialSettings) :=
  try_catchW
    (parsed <- call FileText (settingsFile h) ;;
     settings <- liftC (ZAutoCommitSettings_partial_parse parsed) ;;
     log logger LInfo "Loaded settings from file" ;;
     retW (Some settings))%W
    (fun _ =>
       (log logger LError "Failed to load settings file" ;;
        retW None)%W).

Definition generateCommitSummary (logger : Logger) (h : Host) (turn : LastTurn)
  (settings : AutoCommitSettings) : W jsstring :=
  (log logger LInfo "Generating commit summary" ;;
   let prompt := summaryPrompt turn in
   try_catchW
     (tempSession <- call (SessionCreate "temp-commit-summary") (sessionCreate h) ;;
      match tempSession with
      | None => throwW (Error "Failed to create temporary session")
      | Some session =>
          result <- call (SessionPrompt session prompt) (sessionPrompt h) ;;
          let summary := summaryText result in
          if falsy summary then
            throwW (Error "No text response from commit summary prompt")
          else
            call (SessionDelete session) (sessionDelete h) ;;
            log logger LInfo "Commit summary generated" ;;
            retW (match summary with Some s => s | None => [] end)
      end)
     (fun _ =>
        log logger LError
          "Failed to generate commit summary using temporary session" ;;
        retW (lit "Auto-commit")))%W.

Definition makeCommit (logger : Logger) (h : Host) (message : jsstring) : W bool :=
  (staged <-
     try_catchW
       (log logger LInfo "Staging all changes" ;;
        call GitAddAll (gitAdd h) ;;
        log logger LInfo "Creating commit" ;;
        retW true)
       (fun _ =>
          log logger LError "Failed to stage changes" ;;
          retW false) ;;
   if negb staged then retW false
   else
     try_catchW
       (call (GitCommit message) (gitCommit h) ;;
        log logger LInfo "Commit created successfully" ;;
        retW true)
       (fun _ =>
          log logger LError "Failed to commit changes" ;;
          retW false))%W.

(** What a run of the closure code does, in order: a call to the host,
    or the assignment [lastCommittedTurnID = ...]. *)
Inductive Obs :=
| Called (e : Effect)
| Wrote (marker : jsstring).

Definition M (A : Type) : Type :=
  PluginState -> PluginState * (list Obs * Completion A).

Definition retM {A} (a : A) : M A := fun st => (st, ([], Normal a)).

Definition bindM {A B} (m : M A) (k : A -> M B) : M B :=
  fun st =>
    match m st with
    | (st1, (t, Normal a)) =>
        match k a st1 with (st2, (t', r)) => (st2, (t ++ t', r)) end
    | (st1, (t, Throw e)) => (st1, (t, Throw e))
    end.

Definition throwM {A} (e : Exn) : M A := fun st => (st, ([], Throw e)).

Definition try_catchM {A} (body : M A) (handler : Exn -> M A) : M A :=
  fun st =>
    match body st with
    | (st1, (t, Normal a)) => (st1, (t, Normal a))
    | (st1, (t, Throw e)) =>
        match handler e st1 with (st2, (t', r)) => (st2, (t ++ t', r)) end
    end.

Definition lift {A} (w : W A) : M A :=
  fun st => (st, (map Called (fst w), snd w)).

Definition get_settings : M AutoCommitSettings :=
  fun st => (st, ([], Normal (settings st))).

Definition set_settings (s : AutoCommitSettings) : M unit :=
  fun st => ({| settings := s; lastCommittedTurnID := lastCommittedTurnID st |},
             ([], Normal tt)).

Definition get_lastCommittedTurnID : M (option jsstring) :=
  fun st => (st, ([], Normal (lastCommittedTurnID st))).

Definition set_lastCommittedTurnID (i : jsstring) : M unit :=
  fun st => ({| settings := settings st; lastCommittedTurnID := Some i |},
             ([Wrote i], Normal tt)).

Declare Scope fallible_scope.
Delimit Scope fallible_scope with F.
Notation "x <- m ;; k" := (bindM m (fun x => k))
  (at level 61, m at next level, right associativity) : fallible_scope.
Notation "m ;; k" := (bindM m (fun _ => k))
  (at level 61, right associativity) : fallible_scope.

Definition resetSettingsTool (logger : Logger) (h : Host) : M AutoCommitSettings :=
  try_catchM
    (fileSettings <- lift (loadSettingsFromFile logger h) ;;
     let defaults := defaults_with fileSettings in
     current <- get_settings ;;
     set_settings (Object_assign current defaults) ;;
     get_settings)%F
    (fun error => throwM (ErrorFrom "Failed to reset settings: " error)).

(** The commit pipeline of the handler, from the change check on. *)
Definition commitTurn (logger : Logger) (h : Host) (turn : LastTurn) : M unit :=
  (hasUncommittedChanges <- lift (hasChanges h) ;;
   if negb hasUncommittedChanges then
     lift (log logger LInfo "No changes to commit")
   else
     lift (log logger LInfo
             "Found uncommitted changes, generating commit summary") ;;
     try_catchM
       (s <- get_settings ;;
        summary <- lift (generateCommitSummary logger h turn s) ;;
        let commitMessage := composeCommitMessage summary turn in
        lift (log logger LInfo "Created commit message") ;;
        s' <- get_settings ;;
        let truncatedMessage :=
          truncateCommitMessage commitMessage (maxCommitLength s') in
        success <- lift (makeCommit logger h truncatedMessage) ;;
        if success then lift (log logger LInfo "Committed changes successfully")
        else retM tt)
       (fun _ => lift (log logger LError "Error during auto-commit")))%F.

(** The [event] hook. *)
Definition event (logger : Logger) (ctx : Context) (h : Host) (ev : Event)
  : M unit :=
  match ev with
  | other_event _ => retM tt
  | session_idle sessionID =>
      (lift (log logger LInfo "Session idle event received") ;;
       s <- get_settings ;;
       if mode_eqb (mode s) disabled then
         lift (log logger LInfo "Auto-commit disabled")
       else
         isInWorktree <- lift (isWorktree h (ctx_worktree ctx)) ;;
         lift (log logger LInfo "Checked if in worktree") ;;
         s1 <- get_settings ;;
         if mode_eqb (mode s1) worktree && negb isInWorktree then
           lift (log logger LInfo "Not in worktree, skipping commit")
         else
           lift (log logger LInfo "Fetching session messages") ;;
           response <- lift (call (SessionMessages sessionID) (sessionMessages h)) ;;
           let messages := data_or_empty response in
           match getLastTurn messages with
           | None => lift (log logger LInfo "No turn found in messages")
           | Some turn =>
               last <- get_lastCommittedTurnID ;;
               if same_turn (userMessageID turn) last then
                 lift (log logger LInfo "Turn already committed, skipping")
               else
                 set_lastCommittedTurnID (userMessageID turn) ;;
                 lift (log logger LInfo "Processing new turn") ;;
                 commitTurn logger h turn
           end)%F
  end.

(** The host calls of a run, in order, without the writes. *)
Fixpoint calls (t : list Obs) : list Effect :=
  match t with
  | [] => []
  | Called e :: t' => e :: calls t'
  | Wrote _ :: t' => calls t'
  end.

(** A logger that resolves every entry. *)
Definition resolves (logger : Logger) : Prop :=
  forall level message, logger level message = Normal tt.

(** A logger that rejects one entry and resolves the others. *)
Definition rejecting (message : string) : Logger :=
  fun _ m => if String.eqb m message then Throw HostError else Normal tt.

Definition quiet : Logger := fun _ _ => Normal tt.

Definition is_pipeline_obs (o : Obs) : bool :=
  match o with
  | Called e => is_pipeline_call e
  | Wrote _ => false
  end.

Definition is_write (o : Obs) : bool :=
  match o with
  | Wrote _ => true
  | Called _ => false
  end.

(** A stretch of a run without pipeline call and without write. *)
Definition idle (t : list Obs) : Prop :=
  forallb (fun o => negb (is_pipeline_obs o || is_write o)) t = true.

End FallibleLog.

(** ** Sample inputs *)

Definition user_msg (i : string) (ps : list Part) : Message :=
  {| info := {| id := lit i; role := user; parentID := None |}; parts := ps |}.

Definition assistant_msg (i parent : string) (ps : list Part) : Message :=
  {| info := {| id := lit i; role := assistant; parentID := Some (lit parent) |};
     parts := ps |}.

(** Replies to two prompts, interleaved; the second reply to ["u1"]
    holds a tool call only. *)
Definition interleaved_messages : list Message :=
  [ user_msg "u0" [TextPart (lit "first")];
    assistant_msg "a0" "u0" [TextPart (lit "old")];
    user_msg "u1" [OtherPart "file"; TextPart (lit "Add file")];
    assistant_msg "a1" "u1" [TextPart (lit "A")];
    assistant_msg "a2" "u1" [OtherPart "tool"];
    assistant_msg "a9" "u0" [TextPart (lit "late")];
    assistant_msg "a3" "u1" [OtherPart "step-start"; TextPart (lit "B")] ].

(** The scenario of the specification: one prompt, one reply, a new
    file in the tree, settings file [mode: enabled], and a summary
    delegate that answers ["Add a file"]. *)
Definition scenario_messages : list Message :=
  [ user_msg "u1" [TextPart (lit "Add file")];
    assistant_msg "a1" "u1" [TextPart (lit "Done")] ].

Definition scenario_turn : LastTurn :=
  {| userMessageID := lit "u1";
     userPrompt := lit "Add file";
     assistantResponse := lit "Done" |}.

Definition scenario_context : Context :=
  {| directory := lit "/repo"; ctx_worktree := lit "/repo" |}.

Definition host_with (messages : list Message)
  (prompt : Completion (option (list Part))) : Host :=
  {| settingsFile :=
       Normal (YMap (Some (YString (lit "enabled"))) None (Some (YNumber 10000)));
     fileWrite := Normal tt;
     gitToplevel := Normal (lit "/repo" ++ nl);
     gitStatus := Normal (lit "?? add.py" ++ nl);
     gitAdd := Normal tt;
     gitCommit := Normal tt;
     sessionMessages := Normal (Some messages);
     sessionCreate := Normal (Some (lit "tmp"));
     sessionPrompt := prompt;
     sessionDelete := Normal tt |}.

Definition scenario_host : Host :=
  host_with scenario_messages (Normal (Some [TextPart (lit "Add a file")])).

(** The same host with a summary prompt that rejects. *)
Definition failing_delegate_host : Host :=
  host_with scenario_messages (Throw HostError).

(** A second session of the same host, on a turn of its own. *)
Definition other_session_host : Host :=
  host_with [ user_msg "u2" [TextPart (lit "Rename it")] ]
            (Normal (Some [TextPart (lit "Rename file")])).

(** A host without a settings file. *)
Definition host_without_file : Host :=
  {| settingsFile := Throw HostError;
     fileWrite := Normal tt;
     gitToplevel := Normal (lit "/repo" ++ nl);
     gitStatus := Normal [];
     gitAdd := Normal tt;
     gitCommit := Normal tt;
     sessionMessages := Normal (Some []);
     sessionCreate := Normal (Some (lit "tmp"));
     sessionPrompt := Normal (Some []);
     sessionDelete := Normal tt |}.



Definition enabled_state : PluginState := snd (AutoCommitPlugin scenario_host).

Definition default_state : PluginState := snd (AutoCommitPlugin host_without_file).

(** * Properties *)

(** ** Strings *)

Section Strings.

Lemma eqb_refl (s : jsstring) : JsString.eqb s s = true.
Proof.
  induction s as [|c s IH]; simpl; [reflexivity|].
  unfold unit_eqb. now rewrite N.eqb_refl, IH.
Qed.

Lemma eqb_eq (s t : jsstring) : JsString.eqb s t = true <-> s = t.
Proof.
  split; [|intros ->; apply eqb_refl].
  revert t; induction s as [|c s IH]; intros [|d t]; simpl; try easy.
  unfold unit_eqb. intros H. apply andb_prop in H as [Hc Hs].
  apply N.eqb_eq in Hc. apply IH in Hs. congruence.
Qed.

Lemma substring_prefix (s : jsstring) (n : Z) :
  substring s 0 n = firstn (Z.to_nat n) s.
Proof.
  unfold substring, clamp. simpl Z.to_nat.
  rewrite Nat.min_0_l, Nat.min_0_l, Nat.max_0_l, Nat.sub_0_r. simpl skipn.
  destruct (Nat.le_ge_cases (Z.to_nat n) (List.length s)) as [Hle|Hge].
  - now rewrite Nat.min_l.
  - rewrite Nat.min_r by exact Hge.
    now rewrite firstn_all, firstn_all2.
Qed.

Lemma join_cons (sep x : jsstring) (l : list jsstring) :
  l <> [] -> join sep (x :: l) = x ++ sep ++ join sep l.
Proof. destruct l; [congruence | reflexivity]. Qed.

Lemma join_app (sep : jsstring) (l1 l2 : list jsstring) :
  l1 <> [] -> l2 <> [] ->
  join sep (l1 ++ l2) = join sep l1 ++ sep ++ join sep l2.
Proof.
  induction l1 as [|x l1 IH]; intros H1 H2; [congruence|].
  destruct l1 as [|y l1].
  - simpl app. now rewrite join_cons.
  - change ((x :: y :: l1) ++ l2) with (x :: ((y :: l1) ++ l2)).
    rewrite join_cons by discriminate.
    rewrite IH by (discriminate || assumption).
    rewrite (join_cons sep x (y :: l1)) by discriminate.
    now rewrite <- !app_assoc.
Qed.

(** Joining a flattened list of non-empty groups is joining the joins. *)
Lemma join_concat (sep : jsstring) (groups : list (list jsstring)) :
  Forall (fun g => g <> []) groups ->
  join sep (List.concat groups) = join sep (map (join sep) groups).
Proof.
  induction 1 as [|g groups Hg Hall IH]; [reflexivity|].
  destruct groups as [|g' groups].
  - simpl. now rewrite app_nil_r.
  - change (List.concat (g :: g' :: groups)) with (g ++ List.concat (g' :: groups)).
    rewrite join_app; [| assumption |].
    + rewrite IH. simpl map.
      now rewrite (join_cons sep (join sep g)) by discriminate.
    + inversion Hall as [|? ? Hg' _]; subst.
      destruct g'; [congruence | discriminate].
Qed.

End Strings.

(** ** Truncation *)

Lemma ellipsis_length : JsString.length ellipsis = 4%Z.
Proof. reflexivity. Qed.

(** C7. For every message and every [maxLength >= 100]: a message of
    length at most [maxLength] is returned unchanged; a longer one gives
    a string of length exactly [maxLength] that ends with a newline and
    three dots and agrees with the message on its first [maxLength - 4]
    code units. *)
Theorem truncateCommitMessage_exact (message : jsstring) (maxLength : Z)
  (Hmin : (100 <= maxLength)%Z) :
  ((JsString.length message <= maxLength)%Z ->
   truncateCommitMessage message maxLength = message) /\
  ((maxLength < JsString.length message)%Z ->
   JsString.length (truncateCommitMessage message maxLength) = maxLength /\
   (exists kept, truncateCommitMessage message maxLength
                 = kept ++ lit (String "010" "...")) /\
   substring (truncateCommitMessage message maxLength) 0 (maxLength - 4)
   = substring message 0 (maxLength - 4)).
Proof.
  unfold truncateCommitMessage. split; intros Hlen.
  - apply Z.leb_le in Hlen. now rewrite Hlen.
  - assert (Hgt : (JsString.length message <=? maxLength)%Z = false)
      by (apply Z.leb_gt; exact Hlen).
    rewrite Hgt, ellipsis_length, !substring_prefix.
    unfold JsString.length in *.
    assert (Hk : List.length (firstn (Z.to_nat (maxLength - 4)) message)
                 = Z.to_nat (maxLength - 4))
      by (rewrite length_firstn; lia).
    repeat split.
    + rewrite length_app, Hk. change (List.length ellipsis) with 4%nat. lia.
    + now exists (firstn (Z.to_nat (maxLength - 4)) message).
    + rewrite firstn_app, Hk, Nat.sub_diag. simpl firstn at 2.
      now rewrite app_nil_r, firstn_firstn, Nat.min_id.
Qed.

Lemma truncateCommitMessage_exact_witness :
  (100 <= 100)%Z /\
  JsString.length (truncateCommitMessage (repeat 97%N 150) 100) = 100%Z.
Proof.
  split; [lia|].
  apply (truncateCommitMessage_exact (repeat 97%N 150) 100); [lia|].
  vm_compute. reflexivity.
Defined.

(** ** Turn extraction *)

Section TurnExtraction.

Lemma find_skips (A : Type) (f : A -> bool) (skipped rest : list A) (x : A) :
  forallb (fun a => negb (f a)) skipped = true ->
  f x = true ->
  find f (skipped ++ x :: rest) = Some x.
Proof.
  intros Hskip Hx. induction skipped as [|a skipped IH]; simpl.
  - now rewrite Hx.
  - simpl in Hskip. apply andb_prop in Hskip as [Ha Hskip].
    apply negb_true_iff in Ha. rewrite Ha. now apply IH.
Qed.

Lemma lastUserMsg_anchor (pre post : list Message) (u : Message) :
  is_user u = true ->
  forallb (fun m => negb (is_user m)) post = true ->
  lastUserMsg (pre ++ u :: post) = Some u.
Proof.
  intros Hu Hpost. unfold lastUserMsg.
  rewrite rev_app_distr. simpl rev. rewrite <- app_assoc. simpl app.
  apply find_skips; [|exact Hu].
  rewrite forallb_forall in *. intros m Hm. apply Hpost.
  now apply in_rev.
Qed.

Lemma lastUserMsg_none (messages : list Message) :
  forallb (fun m => negb (is_user m)) messages = true ->
  lastUserMsg messages = None.
Proof.
  intros Hall. unfold lastUserMsg.
  destruct (find is_user (rev messages)) as [m|] eqn:Hfind; [|reflexivity].
  apply find_some in Hfind as [Hin Hm].
  rewrite forallb_forall in Hall. apply in_rev in Hin.
  specialize (Hall m Hin). rewrite Hm in Hall. discriminate.
Qed.

Lemma textParts_nonempty (m : Message) :
  has_text m = true -> map text_of (textParts (parts m)) <> [].
Proof.
  unfold has_text, textParts. induction (parts m) as [|p ps IH]; simpl.
  - discriminate.
  - destruct (is_text p); simpl; [discriminate | exact IH].
Qed.

Lemma textParts_empty (m : Message) :
  has_text m = false -> textParts (parts m) = [].
Proof.
  unfold has_text, textParts. induction (parts m) as [|p ps IH]; simpl.
  - reflexivity.
  - destruct (is_text p); simpl; [discriminate | exact IH].
Qed.

(** The flattened text parts of a list of messages are the groups of the
    messages that have text, one group per message. *)
Lemma flat_texts_groups (ms : list Message) :
  map text_of (flat_map (fun m => textParts (parts m)) ms)
  = List.concat (map (fun m => map text_of (textParts (parts m)))
                     (filter has_text ms)).
Proof.
  induction ms as [|m ms IH]; [reflexivity|].
  simpl flat_map. rewrite map_app, IH. simpl filter.
  destruct (has_text m) eqn:Ht.
  - reflexivity.
  - now rewrite (textParts_empty m Ht).
Qed.

Lemma flat_join_is_join_of_joins (ms : list Message) :
  join nl (map text_of (flat_map (fun m => textParts (parts m)) ms))
  = join nl (map messageText (filter has_text ms)).
Proof.
  rewrite flat_texts_groups, join_concat.
  - now rewrite map_map.
  - apply Forall_forall. intros g Hg.
    apply in_map_iff in Hg as [m [<- Hm]].
    apply filter_In in Hm as [_ Hm]. now apply textParts_nonempty.
Qed.

End TurnExtraction.

(** C6, as the code has it.  Let [u] be the last user message of the
    list.  [getLastTurn] anchors on [u]; [userPrompt] is the newline-join
    of the text parts of [u] in part order; [assistantResponse] is the
    newline-join, in list order, of the per-message texts of all and only
    the assistant messages whose [parentID] is the id of [u] and that
    have at least one text part, the text of a message being the
    newline-join of its text parts.  A replying assistant message
    without text parts adds no segment. *)
Theorem getLastTurn_anchor_and_join (pre post : list Message) (u : Message)
  (Huser : is_user u = true)
  (Hlast : forallb (fun m => negb (is_user m)) post = true) :
  getLastTurn (pre ++ u :: post)
  = Some {| userMessageID := id (info u);
            userPrompt := join nl (map text_of (textParts (parts u)));
            assistantResponse :=
              join nl (map messageText
                         (filter has_text
                            (filter (replies_to (id (info u)))
                                    (pre ++ u :: post)))) |}.
Proof.
  unfold getLastTurn. rewrite (lastUserMsg_anchor pre post u Huser Hlast).
  now rewrite flat_join_is_join_of_joins.
Qed.

Lemma getLastTurn_anchor_and_join_witness :
  getLastTurn interleaved_messages
  = Some {| userMessageID := lit "u1";
            userPrompt := lit "Add file";
            assistantResponse := lit "A" ++ nl ++ lit "B" |}.
Proof.
  exact (getLastTurn_anchor_and_join
           (firstn 2 interleaved_messages) (skipn 3 interleaved_messages)
           (user_msg "u1" [OtherPart "file"; TextPart (lit "Add file")])
           eq_refl eq_refl).
Defined.

(** C6 as stated fails: a replying assistant message without text parts
    adds an empty segment to the join of the specification and nothing
    to the join of the code. *)
Lemma getLastTurn_empty_segment_counterexample :
  option_map assistantResponse (getLastTurn interleaved_messages)
  = Some (lit "A" ++ nl ++ lit "B") /\
  assistantResponse_spec (lit "u1") interleaved_messages
  = lit "A" ++ nl ++ nl ++ lit "B" /\
  option_map assistantResponse (getLastTurn interleaved_messages)
  <> Some (assistantResponse_spec (lit "u1") interleaved_messages).
Proof.
  repeat split; try reflexivity.
  vm_compute. discriminate.
Qed.

(** ** The top-level functions and the host *)

(** Membership of a call in an explicit trace. *)
Ltac in_trace :=
  cbn; solve [ reflexivity | repeat (first [ left; reflexivity | right ]) ].

Section HostCalls.

Variable h : Host.

Lemma isWorktree_answers (d : jsstring) :
  exists b, isWorktree h d = ([GitRevParse], Normal b).
Proof.
  unfold isWorktree, call. destruct (gitToplevel h); cbn; eauto.
Qed.

Lemma hasChanges_answers :
  exists b, hasChanges h = ([GitStatus], Normal b).
Proof.
  unfold hasChanges, call. destruct (gitStatus h); cbn; eauto.
Qed.

Lemma loadSettingsFromFile_returns :
  exists t fileSettings, loadSettingsFromFile h = (t, Normal fileSettings).
Proof.
  unfold loadSettingsFromFile, call, liftC.
  destruct (settingsFile h) as [doc|e]; cbn; eauto.
  destruct (ZAutoCommitSettings_partial_parse doc); cbn; eauto.
Qed.

(** [generateCommitSummary] completes normally whatever the host
    answers, and stages nothing. *)
Lemma generateCommitSummary_returns (turn : LastTurn) (s : AutoCommitSettings) :
  exists t summary,
    generateCommitSummary h turn s = (t, Normal summary) /\
    commit_attempts t = 0.
Proof.
  unfold generateCommitSummary, call.
  destruct (sessionCreate h) as [[session|]|e]; cbn; eauto.
  destruct (sessionPrompt h) as [data|e]; cbn; eauto.
  destruct (falsy (summaryText data)); cbn; eauto.
  destruct (sessionDelete h); cbn; eauto.
Qed.

Lemma generateCommitSummary_fallback (turn : LastTurn) (s : AutoCommitSettings) :
  delegate_fails h ->
  snd (generateCommitSummary h turn s) = Normal (lit "Auto-commit").
Proof.
  unfold generateCommitSummary, call.
  intros [e He | He | session e Hc Hp | session data Hc Hp Hf | session e Hc Hd].
  - rewrite He. reflexivity.
  - rewrite He. reflexivity.
  - rewrite Hc, Hp. reflexivity.
  - rewrite Hc, Hp. cbn. rewrite Hf. reflexivity.
  - rewrite Hc, Hd. destruct (sessionPrompt h) as [data|e']; cbn; [|reflexivity].
    destruct (falsy (summaryText data)); reflexivity.
Qed.

(** The temporary session is deleted on the path that returns the
    generated summary, and on no path that falls back after the session
    was created. *)
Lemma generateCommitSummary_delete_paths (turn : LastTurn) (s : AutoCommitSettings)
  (session : jsstring) :
  sessionCreate h = Normal (Some session) ->
  In (SessionDelete session) (fst (generateCommitSummary h turn s)) <->
  exists data, sessionPrompt h = Normal data /\ falsy (summaryText data) = false.
Proof.
  intros Hc. unfold generateCommitSummary, call. rewrite Hc.
  destruct (sessionPrompt h) as [data|e]; cbn.
  - destruct (falsy (summaryText data)) eqn:Hf; cbn.
    + split; [intuition discriminate|].
      intros [d [Hd Hfd]]. injection Hd as <-. congruence.
    + split; [eauto|]. intros _.
      destruct (sessionDelete h); cbn; auto.
  - split; [intuition discriminate|]. intros [d [Hd _]]. discriminate.
Qed.

(** [makeCommit] completes normally, stages once, and commits with the
    message it was given when staging worked. *)
Lemma makeCommit_returns (message : jsstring) :
  exists t b,
    makeCommit h message = (t, Normal b) /\
    commit_attempts t = 1 /\
    In GitAddAll t /\
    (gitAdd h = Normal tt -> In (GitCommit message) t).
Proof.
  unfold makeCommit, call.
  destruct (gitAdd h) as [[]|e]; cbn.
  - destruct (gitCommit h); cbn; do 2 eexists;
      (split; [reflexivity|]); repeat split; intros; in_trace.
  - do 2 eexists; (split; [reflexivity|]); repeat split;
      try discriminate; in_trace.
Qed.

End HostCalls.

(** ** The event handler, stage by stage *)

Arguments isWorktree : simpl never.
Arguments hasChanges : simpl never.
Arguments generateCommitSummary : simpl never.
Arguments makeCommit : simpl never.
Arguments getLastTurn : simpl never.
Arguments truncateCommitMessage : simpl never.
Arguments composeCommitMessage : simpl never.
Arguments loadSettingsFromFile : simpl never.
Arguments commitTurn : simpl never.

Lemma commit_attempts_app (t1 t2 : list Effect) :
  commit_attempts (t1 ++ t2) = commit_attempts t1 + commit_attempts t2.
Proof. unfold commit_attempts. now rewrite filter_app, length_app. Qed.

Section Handler.

Variables (ctx : Context) (h : Host).

(** The commit pipeline leaves the plugin state alone, completes
    normally, starts with the change check and stops there on a clean
    tree; on a dirty tree it generates the summary and hands the
    truncated message to [makeCommit]. *)
Lemma commitTurn_shape (turn : LastTurn) (st : PluginState) :
  exists t,
    commitTurn h turn st = (st, (GitStatus :: t, Normal tt)) /\
    (snd (hasChanges h) = Normal false ->
     t = [AppLog LInfo "No changes to commit"]) /\
    (snd (hasChanges h) = Normal true ->
     exists ts summary tc b tl,
       generateCommitSummary h turn (settings st) = (ts, Normal summary) /\
       makeCommit h (truncateCommitMessage (composeCommitMessage summary turn)
                       (maxCommitLength (settings st))) = (tc, Normal b) /\
       t = AppLog LInfo "Found uncommitted changes, generating commit summary"
           :: ts ++ AppLog LInfo "Created commit message" :: tc ++ tl /\
       commit_attempts tl = 0).
Proof.
  destruct (hasChanges_answers h) as [dirty Hd].
  unfold commitTurn, bindM, try_catchM, lift, get_settings, retM, retW, log, call.
  rewrite Hd. destruct dirty; cbn.
  - destruct (generateCommitSummary_returns h turn (settings st))
      as (ts & summary & Hs & _).
    rewrite Hs. cbn.
    destruct (makeCommit_returns h
                (truncateCommitMessage (composeCommitMessage summary turn)
                   (maxCommitLength (settings st))))
      as (tc & b & Hm & _).
    rewrite Hm. destruct b; cbn.
    + eexists. split; [reflexivity|]. split; [discriminate|]. intros _.
      exists ts, summary, tc, true, [AppLog LInfo "Committed changes successfully"].
      repeat split; assumption.
    + eexists. split; [reflexivity|]. split; [discriminate|]. intros _.
      exists ts, summary, tc, false, [].
      repeat split; assumption.
  - eexists. split; [reflexivity|]. split; [reflexivity | discriminate].
Qed.

Lemma commitTurn_attempts (turn : LastTurn) (st : PluginState) :
  commit_attempts (trace_of (commitTurn h turn st)) <= 1.
Proof.
  destruct (commitTurn_shape turn st) as (t & Heq & Hclean & Hdirty).
  unfold trace_of. rewrite Heq. cbn [fst snd].
  destruct (hasChanges_answers h) as [[] Hd]; rewrite Hd in *; cbn [snd] in *.
  - destruct (Hdirty eq_refl) as (ts & summary & tc & b & tl & Hs & Hm & -> & Htl).
    destruct (generateCommitSummary_returns h turn (settings st))
      as (ts' & summary' & Hs' & Hts).
    destruct (makeCommit_returns h
                (truncateCommitMessage (composeCommitMessage summary turn)
                   (maxCommitLength (settings st))))
      as (tc' & b' & Hm' & Htc & _).
    rewrite Hs in Hs'. rewrite Hm in Hm'.
    injection Hs' as <- <-. injection Hm' as <- <-.
    change (GitStatus :: ?x :: ts ++ ?y :: tc ++ tl)
      with ([GitStatus; x] ++ ts ++ [y] ++ tc ++ tl).
    rewrite !commit_attempts_app, Hts, Htc, Htl. cbn. lia.
  - rewrite (Hclean eq_refl). cbn. lia.
Qed.

End Handler.

Section Gate.

Variables (ctx : Context) (h : Host) (sessionID : jsstring).

Lemma event_disabled (st : PluginState) :
  mode (settings st) = disabled ->
  event ctx h (session_idle sessionID) st
  = (st, ([AppLog LInfo "Session idle event received";
           AppLog LInfo "Auto-commit disabled"], Normal tt)).
Proof.
  intros Hmode.
  unfold event, bindM, lift, get_settings, retW, log, call.
  rewrite Hmode. reflexivity.
Qed.

Lemma event_outside_worktree (st : PluginState) :
  mode (settings st) = worktree ->
  snd (isWorktree h (ctx_worktree ctx)) = Normal false ->
  event ctx h (session_idle sessionID) st
  = (st, ([AppLog LInfo "Session idle event received";
           GitRevParse;
           AppLog LInfo "Checked if in worktree";
           AppLog LInfo "Not in worktree, skipping commit"], Normal tt)).
Proof.
  intros Hmode Hwt.
  destruct (isWorktree_answers h (ctx_worktree ctx)) as [b Hb].
  rewrite Hb in Hwt. cbn in Hwt. injection Hwt as ->.
  unfold event, bindM, lift, get_settings, retW, log, call.
  rewrite Hmode, Hb. cbn. rewrite Hmode. reflexivity.
Qed.

(** Past the mode gate the handler queries the session, looks for the
    latest turn, compares its id with the marker, and, for a new turn,
    writes the marker and only then enters the commit pipeline. *)
Lemma event_past_gate (st : PluginState) :
  passes_gate ctx h st ->
  event ctx h (session_idle sessionID) st
  = let upto_query :=
      [AppLog LInfo "Session idle event received";
       GitRevParse;
       AppLog LInfo "Checked if in worktree";
       AppLog LInfo "Fetching session messages";
       SessionMessages sessionID] in
    match sessionMessages h with
    | Throw e => (st, (upto_query, Throw e))
    | Normal response =>
        match getLastTurn (data_or_empty response) with
        | None =>
            (st, (upto_query ++ [AppLog LInfo "No turn found in messages"],
                  Normal tt))
        | Some turn =>
            if same_turn (userMessageID turn) (lastCommittedTurnID st) then
              (st, (upto_query ++ [AppLog LInfo "Turn already committed, skipping"],
                    Normal tt))
            else
              let marked := {| settings := settings st;
                               lastCommittedTurnID := Some (userMessageID turn) |} in
              (marked,
               (upto_query ++ AppLog LInfo "Processing new turn"
                  :: trace_of (commitTurn h turn marked),
                Normal tt))
        end
    end.
Proof.
  intros Hgate. unfold passes_gate in Hgate.
  destruct (isWorktree_answers h (ctx_worktree ctx)) as [b Hb].
  assert (Hpass : mode_eqb (mode (settings st)) disabled = false /\
                  mode_eqb (mode (settings st)) worktree && negb b = false).
  { destruct (mode (settings st)); cbn; [contradiction | | auto].
    rewrite Hb in Hgate. cbn in Hgate. injection Hgate as ->. auto. }
  destruct Hpass as [Hon Hin].
  unfold event, bindM, lift, get_settings, get_lastCommittedTurnID,
    set_lastCommittedTurnID, retW, log, call.
  rewrite Hon, Hb. cbn. rewrite Hin.
  destruct (sessionMessages h) as [response|e]; cbn; [|reflexivity].
  destruct (getLastTurn (data_or_empty response)) as [turn|]; cbn; [|reflexivity].
  destruct (same_turn (userMessageID turn) (lastCommittedTurnID st)); cbn;
    [reflexivity|].
  destruct (commitTurn_shape h turn
              {| settings := settings st;
                 lastCommittedTurnID := Some (userMessageID turn) |})
    as (t & Heq & _).
  unfold trace_of. rewrite Heq. reflexivity.
Qed.

End Gate.

(** ** Mode gating *)



(** ** Summary fallback *)

(** The scenario of the specification, run on the embedding. *)
Example scenario_commit :
  event scenario_context scenario_host (session_idle (lit "ses")) enabled_state
  = ({| settings := settings enabled_state;
        lastCommittedTurnID := Some (lit "u1") |},
     ([AppLog LInfo "Session idle event received";
       GitRevParse;
       AppLog LInfo "Checked if in worktree";
       AppLog LInfo "Fetching session messages";
       SessionMessages (lit "ses");
       AppLog LInfo "Processing new turn";
       GitStatus;
       AppLog LInfo "Found uncommitted changes, generating commit summary";
       AppLog LInfo "Generating commit summary";
       SessionCreate "temp-commit-summary";
       SessionPrompt (lit "tmp") (summaryPrompt scenario_turn);
       SessionDelete (lit "tmp");
       AppLog LInfo "Commit summary generated";
       AppLog LInfo "Created commit message";
       AppLog LInfo "Staging all changes";
       GitAddAll;
       AppLog LInfo "Creating commit";
       GitCommit (lit "Add a file" ++ nl ++ nl ++ lit "## User Prompt" ++ nl
                  ++ lit "Add file" ++ nl ++ nl ++ lit "## LLM Response" ++ nl
                  ++ lit "Done");
       AppLog LInfo "Commit created successfully";
       AppLog LInfo "Committed changes successfully"],
      Normal tt)).
Proof. vm_compute. reflexivity. Qed.

Lemma latestTurn_inv (h : Host) (turn : LastTurn) :
  latestTurn h = Some turn ->
  exists response,
    sessionMessages h = Normal response /\
    getLastTurn (data_or_empty response) = Some turn.
Proof.
  unfold latestTurn. destruct (sessionMessages h) as [response|e]; [eauto|discriminate].
Qed.

(** A new turn past the gate: the marker is written and the commit
    pipeline follows. *)
Lemma event_new_turn (ctx : Context) (h : Host) (sessionID : jsstring)
  (st : PluginState) (turn : LastTurn) :
  passes_gate ctx h st ->
  latestTurn h = Some turn ->
  same_turn (userMessageID turn) (lastCommittedTurnID st) = false ->
  let marked := {| settings := settings st;
                   lastCommittedTurnID := Some (userMessageID turn) |} in
  exists before,
    event ctx h (session_idle sessionID) st
    = (marked, (before ++ trace_of (commitTurn h turn marked), Normal tt)) /\
    skips before.
Proof.
  intros Hgate Hturn Hnew marked.
  apply latestTurn_inv in Hturn as (response & Hr & Hl).
  rewrite (event_past_gate ctx h sessionID st Hgate), Hr, Hl, Hnew.
  cbv zeta.
  eexists ([_; _; _; _; _] ++ [_]). rewrite <- app_assoc. split; reflexivity.
Qed.


(** ** Deduplication *)

Section Dedup.

Variable ctx : Context.

Lemma skips_no_attempt (t : list Effect) : skips t -> commit_attempts t = 0.
Proof.
  unfold skips, commit_attempts. induction t as [|e t IH]; [reflexivity|].
  cbn [forallb filter]. intros H. apply andb_prop in H as [He Ht].
  destruct e; cbn in *; try discriminate; auto.
Qed.


Lemma same_turn_true (i : jsstring) (last : option jsstring) :
  same_turn i last = true <-> last = Some i.
Proof.
  unfold same_turn. destruct last as [l|]; [|split; discriminate].
  rewrite eqb_eq. split; congruence.
Qed.

(** Every run of the handler is either a skip that leaves the state
    alone, or the processing of a new turn: marker first, pipeline
    next. *)
Lemma event_cases (h : Host) (sessionID : jsstring) (st : PluginState) :
  (exists t c, event ctx h (session_idle sessionID) st = (st, (t, c)) /\ skips t /\
               (passes_gate ctx h st ->
                forall turn, latestTurn h = Some turn ->
                             lastCommittedTurnID st = Some (userMessageID turn))) \/
  (exists turn before,
      passes_gate ctx h st /\
      latestTurn h = Some turn /\
      same_turn (userMessageID turn) (lastCommittedTurnID st) = false /\
      let marked := {| settings := settings st;
                       lastCommittedTurnID := Some (userMessageID turn) |} in
      event ctx h (session_idle sessionID) st
      = (marked, (before ++ trace_of (commitTurn h turn marked), Normal tt)) /\
      skips before).
Proof.
  destruct (isWorktree_answers h (ctx_worktree ctx)) as [inside Hprobe].
  assert (Hgate : passes_gate ctx h st \/
                  mode (settings st) = disabled \/
                  (mode (settings st) = worktree /\
                   snd (isWorktree h (ctx_worktree ctx)) = Normal false)).
  { unfold passes_gate. rewrite Hprobe.
    destruct (mode (settings st)), inside; cbn; auto. }
  destruct Hgate as [Hgate | [Hoff | [Hwt Hout]]].
  - unfold latestTurn.
    destruct (sessionMessages h) as [response|e] eqn:Hr.
    + destruct (getLastTurn (data_or_empty response)) as [turn|] eqn:Hl.
      * destruct (same_turn (userMessageID turn) (lastCommittedTurnID st)) eqn:Hs.
        -- left. rewrite (event_past_gate ctx h sessionID st Hgate), Hr, Hl, Hs.
           do 2 eexists. repeat split.
           intros _ turn' [= <-]. now apply same_turn_true.
        -- right. exists turn.
           destruct (event_new_turn ctx h sessionID st turn Hgate) as (before & Hev & Hb);
             [unfold latestTurn; now rewrite Hr | exact Hs |].
           exists before. auto.
      * left. rewrite (event_past_gate ctx h sessionID st Hgate), Hr, Hl.
        do 2 eexists. repeat split. discriminate.
    + left. rewrite (event_past_gate ctx h sessionID st Hgate), Hr.
      do 2 eexists. repeat split. discriminate.
  - left. rewrite (event_disabled ctx h sessionID st Hoff).
    do 2 eexists. repeat split.
    unfold passes_gate. now rewrite Hoff.
  - left. rewrite (event_outside_worktree ctx h sessionID st Hwt Hout).
    do 2 eexists. repeat split.
    unfold passes_gate. rewrite Hwt, Hout. discriminate.
Qed.

Lemma event_attempts (h : Host) (sessionID : jsstring) (st : PluginState) :
  commit_attempts (trace_of (event ctx h (session_idle sessionID) st)) <= 1.
Proof.
  destruct (event_cases h sessionID st)
    as [(t & c & -> & Hskip & _) | (turn & before & _ & _ & _ & -> & Hskip)];
    unfold trace_of at 1; cbn [fst snd].
  - rewrite (skips_no_attempt t Hskip). lia.
  - rewrite commit_attempts_app, (skips_no_attempt before Hskip).
    apply commitTurn_attempts.
Qed.


End Dedup.


(** C1 as stated fails: the marker remembers one turn only.  An event
    of a second session, on a turn of its own, overwrites the marker,
    and the next event of the first session commits its turn again. *)
Lemma dedup_marker_overwritten_counterexample :
  let st1 := state_after (event scenario_context scenario_host
                            (session_idle (lit "ses")) enabled_state) in
  let st2 := state_after (event scenario_context other_session_host
                            (session_idle (lit "other")) st1) in
  let again := trace_of (event scenario_context scenario_host
                           (session_idle (lit "ses")) st2) in
  lastCommittedTurnID st1 = Some (lit "u1") /\
  lastCommittedTurnID st2 = Some (lit "u2") /\
  latestTurn scenario_host = Some scenario_turn /\
  commit_attempts again = 1 /\
  ~ never_reprocessed.
Proof.
  cbv zeta. repeat split.
  intros Hnever.
  specialize (Hnever scenario_context enabled_state scenario_host scenario_host
                [(other_session_host, lit "other")] (lit "ses") (lit "ses")
                scenario_turn eq_refl eq_refl).
  vm_compute in Hnever. discriminate.
Qed.

(** ** Settings tools *)

Section SettingsTools.

Variable st : PluginState.

(** What [setAutoCommitSettings] checks is the mode: with a mode
    argument outside the enumeration the call throws and the settings
    stay as they were. *)
Lemma setSettingsTool_invalid_mode (args : ToolArgs) (m : jsstring) (e : Exn) :
  arg_mode args = Some m ->
  ZAutoCommitMode_parse m = Throw e ->
  setSettingsTool args st
  = (st, ([], Throw (ErrorFrom "Failed to update settings: " e))).
Proof.
  intros Hm Hparse.
  unfold setSettingsTool, try_catchM, bindM, lift, liftC, throwM, throwW.
  rewrite Hm, Hparse. reflexivity.
Qed.

(** With the mode left out or valid, the call merges every argument
    given into the settings and returns them. *)
Lemma setSettingsTool_merges (args : ToolArgs) (update_mode : option AutoCommitMode) :
  match arg_mode args with
  | None => update_mode = None
  | Some m => exists v, ZAutoCommitMode_parse m = Normal v /\ update_mode = Some v
  end ->
  let merged :=
    Object_assign (settings st)
      {| p_mode := update_mode;
         p_commitModel := option_map or_undefined (arg_commitModel args);
         p_maxCommitLength := arg_maxCommitLength args |} in
  setSettingsTool args st
  = ({| settings := merged; lastCommittedTurnID := lastCommittedTurnID st |},
     ([], Normal merged)).
Proof.
  intros Hmode.
  unfold setSettingsTool, try_catchM, bindM, lift, liftC, get_settings,
    set_settings, retM, retW.
  destruct (arg_mode args) as [m|].
  - destruct Hmode as (v & Hparse & ->). rewrite Hparse. reflexivity.
  - rewrite Hmode. reflexivity.
Qed.

(** [resetAutoCommitSettings] completes normally and assigns the
    defaults, overridden by the file layer, onto the settings. *)
Lemma resetSettingsTool_assigns (h : Host) :
  exists t fileSettings,
    loadSettingsFromFile h = (t, Normal fileSettings) /\
    resetSettingsTool h st
    = (let merged := Object_assign (settings st) (defaults_with fileSettings) in
       ({| settings := merged; lastCommittedTurnID := lastCommittedTurnID st |},
        (t, Normal merged))).
Proof.
  destruct (loadSettingsFromFile_returns h) as (t & fileSettings & Hload).
  exists t, fileSettings. split; [exact Hload|].
  unfold resetSettingsTool, try_catchM, bindM, lift, get_settings, set_settings,
    retM, retW.
  rewrite Hload. cbn. now rewrite !app_nil_r.
Qed.

End SettingsTools.

(** C10. When the call goes through (mode argument left out or valid):
    a [commitModel] argument equal to the empty string leaves
    [settings.commitModel] undefined, a non-empty one is stored as
    given, and a call without the argument keeps the previous value. *)
Theorem setSettingsTool_commitModel (args : ToolArgs) (st : PluginState)
  (Hmode : match arg_mode args with
           | None => True
           | Some m => exists v, ZAutoCommitMode_parse m = Normal v
           end) :
  let r := setSettingsTool args st in
  completion_of r = Normal (settings (state_after r)) /\
  commitModel (settings (state_after r))
  = match arg_commitModel args with
    | None => commitModel (settings st)
    | Some [] => None
    | Some (c :: m) => Some (c :: m)
    end.
Proof.
  assert (Hu : exists update_mode,
             match arg_mode args with
             | None => update_mode = None
             | Some m => exists v, ZAutoCommitMode_parse m = Normal v /\
                                   update_mode = Some v
             end).
  { destruct (arg_mode args) as [m|]; [|now exists None].
    destruct Hmode as [v Hv]. exists (Some v). eauto. }
  destruct Hu as [update_mode Hu].
  cbv zeta. rewrite (setSettingsTool_merges st args update_mode Hu).
  unfold completion_of, state_after. cbn [fst snd settings].
  split; [reflexivity|].
  unfold Object_assign. cbn [commitModel].
  destruct (arg_commitModel args) as [[|c m]|]; reflexivity.
Qed.

Lemma setSettingsTool_commitModel_witness :
  commitModel
    (settings (state_after
                 (setSettingsTool
                    {| arg_mode := Some (lit "enabled");
                       arg_commitModel := Some [];
                       arg_maxCommitLength := None |}
                    {| settings := {| mode := worktree;
                                      commitModel := Some (lit "big-model");
                                      maxCommitLength := 10000 |};
                       lastCommittedTurnID := None |})))
  = None.
Proof.
  apply (setSettingsTool_commitModel
           {| arg_mode := Some (lit "enabled");
              arg_commitModel := Some [];
              arg_maxCommitLength := None |}).
  exists enabled. reflexivity.
Defined.

(** C2, at the failing input.  [setAutoCommitSettings] with
    [maxCommitLength: 50] on the default settings completes normally
    and stores 50: the bound of the schema is not checked on this
    path. *)
Theorem setSettingsTool_accepts_short_maxCommitLength :
  let args := {| arg_mode := None; arg_commitModel := None;
                 arg_maxCommitLength := Some 50%Z |} in
  let r := setSettingsTool args default_state in
  maxCommitLength (settings default_state) = 10000%Z /\
  completion_of r
  = Normal {| mode := worktree; commitModel := None; maxCommitLength := 50 |} /\
  maxCommitLength (settings (state_after r)) = 50%Z /\
  parse_maxCommitLength (YNumber 50) = Throw ZodError.
Proof. cbv zeta. repeat split. Qed.

(** ** The settings invariant *)

Section Invariant.

Lemma partial_parse_bound (doc : YamlDoc) (p : PartialSettings) (n : Z) :
  ZAutoCommitSettings_partial_parse doc = Normal p ->
  p_maxCommitLength p = Some n ->
  (100 <= n)%Z.
Proof.
  destruct doc as [m c l|]; [|discriminate]. cbn.
  destruct (parse_optional parse_mode m); [|discriminate].
  destruct (parse_optional parse_string c); [|discriminate].
  destruct l as [[s|k|]|]; cbn; try discriminate.
  - destruct (100 <=? k)%Z eqn:Hk; [|discriminate].
    intros [= <-] [= <-]. now apply Z.leb_le.
  - intros [= <-]. discriminate.
Qed.

Lemma loadSettingsFromFile_bound (h : Host) (t : list Effect)
  (p : PartialSettings) (n : Z) :
  loadSettingsFromFile h = (t, Normal (Some p)) ->
  p_maxCommitLength p = Some n ->
  (100 <= n)%Z.
Proof.
  unfold loadSettingsFromFile, call, liftC.
  destruct (settingsFile h) as [doc|e]; cbn; [|discriminate].
  destruct (ZAutoCommitSettings_partial_parse doc) as [p'|e] eqn:Hp; cbn;
    [|discriminate].
  intros [= _ <-]. now apply (partial_parse_bound doc).
Qed.

Lemma defaults_with_ok (h : Host) (t : list Effect)
  (fileSettings : option PartialSettings) (s : AutoCommitSettings) :
  loadSettingsFromFile h = (t, Normal fileSettings) ->
  settings_ok (Object_assign s (defaults_with fileSettings)).
Proof.
  intros Hload. unfold settings_ok, Object_assign, defaults_with.
  destruct fileSettings as [p|]; cbn; [|lia].
  destruct (p_maxCommitLength p) as [n|] eqn:Hn; cbn; [|lia].
  now apply (loadSettingsFromFile_bound h t p).
Qed.

(** The settings of a fresh instance satisfy the bound. *)
Lemma AutoCommitPlugin_ok (h : Host) :
  settings_ok (settings (snd (AutoCommitPlugin h))).
Proof.
  unfold AutoCommitPlugin.
  destruct (loadSettingsFromFile_returns h) as (t & fileSettings & Hload).
  rewrite Hload. cbn [snd settings]. unfold settings_of.
  now apply (defaults_with_ok h t).
Qed.

Lemma initTool_state (h : Host) (args : ToolArgs) (st : PluginState) :
  state_after (initTool h args st) = st.
Proof.
  unfold initTool, try_catchM, bindM, lift, liftC, call, log, throwM, retM,
    state_after.
  destruct (arg_mode args) as [[|c m]|]; cbn;
    try (destruct (ZAutoCommitMode_parse (c :: m)); cbn);
    destruct (fileWrite h); reflexivity.
Qed.

Lemma event_settings (ctx : Context) (h : Host) (ev : Event) (st : PluginState) :
  settings (state_after (event ctx h ev st)) = settings st.
Proof.
  destruct ev as [sessionID|type]; [|reflexivity].
  destruct (event_cases ctx h sessionID st)
    as [(t & c & -> & _) | (turn & before & _ & _ & _ & -> & _)]; reflexivity.
Qed.

(** Every interaction other than a [setAutoCommitSettings] call with a
    [maxCommitLength] below 100 keeps the bound. *)
Lemma step_ok (ctx : Context) (st : PluginState) (c : Call) :
  respects_bound c ->
  settings_ok (settings st) ->
  settings_ok (settings (step ctx st c)).
Proof.
  intros Hc Hst. destruct c as [|args|h|h args|h ev]; cbn [step].
  - exact Hst.
  - destruct (arg_mode args) as [m|] eqn:Hm.
    + destruct (ZAutoCommitMode_parse m) as [v|e] eqn:Hv.
      * rewrite (setSettingsTool_merges st args (Some v))
          by (rewrite Hm; eauto).
        cbn in *. unfold settings_ok, Object_assign in *. cbn.
        destruct (arg_maxCommitLength args); cbn; assumption.
      * now rewrite (setSettingsTool_invalid_mode st args m e Hm Hv).
    + rewrite (setSettingsTool_merges st args None) by (now rewrite Hm).
      cbn in *. unfold settings_ok, Object_assign in *. cbn.
      destruct (arg_maxCommitLength args); cbn; assumption.
  - destruct (resetSettingsTool_assigns st h) as (t & fileSettings & Hload & ->).
    cbn. now apply (defaults_with_ok h t).
  - now rewrite initTool_state.
  - now rewrite event_settings.
Qed.

Lemma run_ok (ctx : Context) (calls : list Call) (st : PluginState) :
  Forall respects_bound calls ->
  settings_ok (settings st) ->
  settings_ok (settings (run ctx st calls)).
Proof.
  unfold run. intros Hcalls. revert st.
  induction Hcalls as [|c calls Hc _ IH]; intros st Hst; [exact Hst|].
  cbn [fold_left]. apply IH. now apply step_ok.
Qed.

End Invariant.

(** C3, at the failing input.  From a fresh instance without settings
    file, a [getAutoCommitSettings] call followed by
    [setAutoCommitSettings] with [maxCommitLength: 50] reaches settings
    whose [maxCommitLength] is 50. *)
Theorem settings_bound_broken_by_set :
  let st := run scenario_context default_state
              [call_get;
               call_set {| arg_mode := None; arg_commitModel := None;
                           arg_maxCommitLength := Some 50%Z |}] in
  settings_ok (settings default_state) /\
  maxCommitLength (settings st) = 50%Z /\
  ~ settings_ok (settings st).
Proof.
  cbv zeta. split; [apply AutoCommitPlugin_ok|].
  split; [reflexivity|].
  unfold settings_ok. vm_compute. intros H. now apply H.
Qed.

(** ** Reset *)

(** After [resetAutoCommitSettings], mode and [maxCommitLength] are
    those of the file layer, or the defaults; [commitModel] is the one
    of the file layer when it has one and is otherwise left as it
    was. *)
Lemma resetSettingsTool_result (h : Host) (st : PluginState) :
  exists t fileSettings,
    loadSettingsFromFile h = (t, Normal fileSettings) /\
    let file := match fileSettings with
                | Some f => f
                | None => {| p_mode := None; p_commitModel := None;
                             p_maxCommitLength := None |}
                end in
    let after := settings (state_after (resetSettingsTool h st)) in
    mode after = overridden worktree (p_mode file) /\
    maxCommitLength after = overridden 10000%Z (p_maxCommitLength file) /\
    commitModel after = overridden (commitModel (settings st)) (p_commitModel file).
Proof.
  destruct (resetSettingsTool_assigns st h) as (t & fileSettings & Hload & ->).
  exists t, fileSettings. split; [exact Hload|].
  destruct fileSettings as [f|]; cbn; auto.
Qed.

(** C4, at the failing input.  A [commitModel] set in the session
    survives [resetAutoCommitSettings] when there is no settings
    file. *)
Theorem resetSettingsTool_keeps_commitModel :
  let st1 := state_after
               (setSettingsTool
                  {| arg_mode := Some (lit "enabled");
                     arg_commitModel := Some (lit "big-model");
                     arg_maxCommitLength := Some 500%Z |}
                  default_state) in
  let r := resetSettingsTool host_without_file st1 in
  settings st1
  = {| mode := enabled; commitModel := Some (lit "big-model");
       maxCommitLength := 500 |} /\
  snd (loadSettingsFromFile host_without_file) = Normal None /\
  completion_of r
  = Normal {| mode := worktree; commitModel := Some (lit "big-model");
              maxCommitLength := 10000 |} /\
  commitModel (settings (state_after r)) = Some (lit "big-model").
Proof. cbv zeta. repeat split. Qed.

(** ** The temporary session *)

(** C5, at the failing input.  The temporary session is created, the
    prompt rejects, and the function falls back without deleting the
    session. *)
Theorem generateCommitSummary_leaves_session :
  generateCommitSummary failing_delegate_host scenario_turn
    (settings enabled_state)
  = ([AppLog LInfo "Generating commit summary";
      SessionCreate "temp-commit-summary";
      SessionPrompt (lit "tmp") (summaryPrompt scenario_turn);
      AppLog LError "Failed to generate commit summary using temporary session"],
     Normal (lit "Auto-commit")) /\
  sessionCreate failing_delegate_host = Normal (Some (lit "tmp")) /\
  ~ In (SessionDelete (lit "tmp"))
       (fst (generateCommitSummary failing_delegate_host scenario_turn
               (settings enabled_state))).
Proof.
  repeat split.
  vm_compute. intuition discriminate.
Qed.

(** * Further properties of the code *)

(** ** Turn extraction: edge cases *)

Lemma lastUserMsg_insert (before after : list Message) (m : Message) :
  is_user m = false ->
  lastUserMsg (before ++ m :: after) = lastUserMsg (before ++ after).
Proof.
  intros Hm. unfold lastUserMsg.
  rewrite !rev_app_distr. cbn [rev]. rewrite <- app_assoc. cbn [app].
  induction (rev after) as [|a l IH]; cbn.
  - now rewrite Hm.
  - destruct (is_user a); [reflexivity | exact IH].
Qed.

(** X1. [getLastTurn] returns [null] exactly when the list holds no
    user-role message; so an empty list and a list of assistant
    messages only give no turn. *)
Theorem getLastTurn_null_iff_no_user (messages : list Message) :
  getLastTurn messages = None <->
  forallb (fun m => negb (is_user m)) messages = true.
Proof.
  unfold getLastTurn. split.
  - intros Hnone.
    destruct (forallb (fun m => negb (is_user m)) messages) eqn:Hall;
      [reflexivity|].
    destruct (lastUserMsg messages) as [u|] eqn:Hlast; [discriminate|].
    exfalso.
    assert (Hex : existsb is_user messages = true).
    { clear -Hall. induction messages as [|m ms IH]; [discriminate|].
      cbn in *. destruct (is_user m); [reflexivity|]. cbn in *. now apply IH. }
    apply existsb_exists in Hex as (u & Hin & Hu).
    unfold lastUserMsg in Hlast.
    apply in_rev in Hin.
    rewrite (find_none _ _ Hlast u Hin) in Hu. discriminate.
  - intros Hall. now rewrite (lastUserMsg_none messages Hall).
Qed.

(** X2. A message that is not a user message and does not reply to the
    anchor of the turn can be inserted anywhere in the list without
    changing what [getLastTurn] returns: replies to older prompts and
    stray assistant messages are ignored wherever they stand. *)
Theorem getLastTurn_ignores_unrelated (before after : list Message) (m : Message)
  (turn : LastTurn)
  (Hturn : getLastTurn (before ++ after) = Some turn)
  (Hrole : is_user m = false)
  (Hother : replies_to (userMessageID turn) m = false) :
  getLastTurn (before ++ m :: after) = Some turn.
Proof.
  unfold getLastTurn in *.
  rewrite (lastUserMsg_insert before after m Hrole).
  destruct (lastUserMsg (before ++ after)) as [u|]; [|discriminate].
  injection Hturn as <-. cbn [userMessageID] in Hother.
  rewrite !filter_app. cbn [filter]. now rewrite Hother.
Qed.

Lemma getLastTurn_ignores_unrelated_witness :
  getLastTurn (firstn 5 interleaved_messages
               ++ assistant_msg "a9" "u0" [TextPart (lit "late")]
               :: skipn 6 interleaved_messages)
  = Some {| userMessageID := lit "u1";
            userPrompt := lit "Add file";
            assistantResponse := lit "A" ++ nl ++ lit "B" |}.
Proof.
  apply (getLastTurn_ignores_unrelated
           (firstn 5 interleaved_messages) (skipn 6 interleaved_messages));
    reflexivity.
Defined.

(** X3. When no message of the list replies to the last user message
    (the prompt is the newest entry, or all replies belong to other
    prompts), the turn has the empty string as [assistantResponse]. *)
Theorem getLastTurn_no_reply (messages : list Message) (turn : LastTurn)
  (Hturn : getLastTurn messages = Some turn)
  (Hnone : forallb (fun m => negb (replies_to (userMessageID turn) m)) messages
           = true) :
  assistantResponse turn = [].
Proof.
  unfold getLastTurn in Hturn.
  destruct (lastUserMsg messages) as [u|]; [|discriminate].
  injection Hturn as <-. cbn [userMessageID assistantResponse] in *.
  assert (Hfilter : filter (replies_to (id (info u))) messages = []).
  { clear -Hnone. induction messages as [|m ms IH]; [reflexivity|].
    cbn in *. apply andb_prop in Hnone as [Hm Hms].
    apply negb_true_iff in Hm. rewrite Hm. now apply IH. }
  now rewrite Hfilter.
Qed.

Lemma getLastTurn_no_reply_witness :
  assistantResponse
    {| userMessageID := lit "u1"; userPrompt := lit "Add file";
       assistantResponse := [] |} = [].
Proof.
  apply (getLastTurn_no_reply
           [ assistant_msg "a0" "u0" [TextPart (lit "old")];
             user_msg "u1" [TextPart (lit "Add file")] ]);
    reflexivity.
Defined.

(** ** Trimming *)

Section Trim.

Lemma trimStart_spaces (ws s : jsstring) :
  forallb is_space ws = true -> trimStart (ws ++ s) = trimStart s.
Proof.
  induction ws as [|c ws IH]; [reflexivity|].
  cbn [forallb app trimStart]. intros H. apply andb_prop in H as [Hc Hws].
  rewrite Hc. now apply IH.
Qed.

Lemma trimStart_nil_iff (s : jsstring) :
  trimStart s = [] <-> forallb is_space s = true.
Proof.
  induction s as [|c s IH]; cbn; [tauto|].
  destruct (is_space c); cbn; [exact IH | split; discriminate].
Qed.

(** The result of [trimStart] does not start with a space. *)
Lemma trimStart_fixed (s : jsstring) : trimStart (trimStart s) = trimStart s.
Proof.
  induction s as [|c s IH]; [reflexivity|].
  cbn [trimStart]. destruct (is_space c) eqn:Hc; [exact IH|].
  cbn [trimStart]. now rewrite Hc.
Qed.

(** [trimStart] drops a prefix of spaces. *)
Lemma trimStart_split (s : jsstring) :
  exists ws, s = ws ++ trimStart s /\ forallb is_space ws = true.
Proof.
  induction s as [|c s (ws & Hs & Hws)]; [now exists []|].
  cbn [trimStart]. destruct (is_space c) eqn:Hc.
  - exists (c :: ws). cbn. rewrite Hc, Hws. split; [congruence | reflexivity].
  - now exists [].
Qed.

Lemma forallb_rev (A : Type) (f : A -> bool) (l : list A) :
  forallb f (rev l) = forallb f l.
Proof.
  induction l as [|a l IH]; [reflexivity|].
  cbn. rewrite forallb_app, IH. cbn. rewrite andb_true_r. apply andb_comm.
Qed.

Lemma trim_nil_iff (s : jsstring) :
  trim s = [] <-> forallb is_space s = true.
Proof.
  unfold trim, trimEnd. rewrite <- trimStart_nil_iff.
  split.
  - intros H. apply (f_equal (@rev code_unit)) in H.
    rewrite rev_involutive in H. cbn in H.
    apply trimStart_nil_iff in H. rewrite forallb_rev in H.
    apply trimStart_nil_iff in H. now rewrite trimStart_fixed in H.
  - intros ->. reflexivity.
Qed.

(** Trailing spaces do not matter to [trim]. *)
Lemma trim_trailing_spaces (s ws : jsstring) :
  forallb is_space ws = true -> trim (s ++ ws) = trim s.
Proof.
  intros Hws. unfold trim, trimEnd.
  destruct (trimStart_split s) as (lead & Hs & Hlead).
  destruct (trimStart s) as [|c t] eqn:Ht.
  - assert (Hall : forallb is_space (s ++ ws) = true).
    { rewrite forallb_app, Hws, andb_true_r.
      apply trimStart_nil_iff. exact Ht. }
    apply trimStart_nil_iff in Hall. now rewrite Hall.
  - assert (Hc : is_space c = false).
    { pose proof (trimStart_fixed s) as Hf. rewrite Ht in Hf.
      cbn in Hf. destruct (is_space c); [|reflexivity].
      exfalso. apply (f_equal (@List.length code_unit)) in Hf.
      destruct (trimStart_split t) as (w & Hw & _).
      rewrite Hw in Hf at 2. cbn in Hf. rewrite length_app in Hf. lia. }
    rewrite Hs at 1. rewrite <- app_assoc, (trimStart_spaces lead _ Hlead).
    cbn [app trimStart]. rewrite Hc.
    change (c :: t ++ ws) with ((c :: t) ++ ws).
    rewrite rev_app_distr, trimStart_spaces; [reflexivity|].
    now rewrite forallb_rev.
Qed.


End Trim.

(** ** Truncation: bound, degenerate bound, composition *)

Lemma truncate_length_le (message : jsstring) (maxLength : Z) :
  (4 <= maxLength)%Z ->
  (JsString.length (truncateCommitMessage message maxLength) <= maxLength)%Z.
Proof.
  intros Hmarker. unfold truncateCommitMessage.
  destruct (JsString.length message <=? maxLength)%Z eqn:Hle.
  - now apply Z.leb_le.
  - apply Z.leb_gt in Hle. rewrite ellipsis_length, substring_prefix.
    unfold JsString.length in *. rewrite length_app, length_firstn.
    change (List.length ellipsis) with 4%nat. lia.
Qed.

(** X4. For every [maxLength] of at least 4 (the length of the marker)
    the result of [truncateCommitMessage] is at most [maxLength] long,
    whatever the message; a message within the bound is returned as it
    is. *)
Theorem truncateCommitMessage_bounded (message : jsstring) (maxLength : Z)
  (Hmarker : (4 <= maxLength)%Z) :
  (JsString.length (truncateCommitMessage message maxLength) <= maxLength)%Z /\
  ((JsString.length message <= maxLength)%Z ->
   truncateCommitMessage message maxLength = message).
Proof.
  split; [now apply truncate_length_le|].
  intros Hle. unfold truncateCommitMessage.
  apply Z.leb_le in Hle. now rewrite Hle.
Qed.

Lemma truncateCommitMessage_bounded_witness :
  (JsString.length (truncateCommitMessage (repeat 97%N 30) 7) <= 7)%Z.
Proof.
  apply (truncateCommitMessage_bounded (repeat 97%N 30) 7). lia.
Defined.

(** X5. Below the length of the marker nothing is raised and the bound
    is not kept: for [maxLength < 4], a message longer than [maxLength]
    is replaced by the bare marker, a newline and three dots, which is 4
    code units long. *)
Theorem truncateCommitMessage_below_marker (message : jsstring) (maxLength : Z)
  (Hsmall : (maxLength < 4)%Z)
  (Hlong : (maxLength < JsString.length message)%Z) :
  truncateCommitMessage message maxLength = lit (String "010" "...").
Proof.
  unfold truncateCommitMessage.
  assert (Hgt : (JsString.length message <=? maxLength)%Z = false)
    by now apply Z.leb_gt.
  rewrite Hgt, ellipsis_length, substring_prefix.
  replace (Z.to_nat (maxLength - 4)) with 0%nat by lia. reflexivity.
Qed.

Lemma truncateCommitMessage_below_marker_witness :
  truncateCommitMessage (lit "fix") 2 = lit (String "010" "...").
Proof.
  apply truncateCommitMessage_below_marker; [lia | vm_compute; reflexivity].
Defined.

(** X6. Truncating twice with the same bound (at least 4) changes
    nothing more. *)
Theorem truncateCommitMessage_idempotent (message : jsstring) (maxLength : Z)
  (Hmarker : (4 <= maxLength)%Z) :
  truncateCommitMessage (truncateCommitMessage message maxLength) maxLength
  = truncateCommitMessage message maxLength.
Proof.
  pose proof (truncate_length_le message maxLength Hmarker) as Hb.
  unfold truncateCommitMessage at 1.
  apply Z.leb_le in Hb. now rewrite Hb.
Qed.

Lemma truncateCommitMessage_idempotent_witness :
  truncateCommitMessage (truncateCommitMessage (repeat 97%N 30) 7) 7
  = truncateCommitMessage (repeat 97%N 30) 7.
Proof.
  apply truncateCommitMessage_idempotent. lia.
Defined.

(** X7. Truncation cuts from the end of the composed message: when the
    summary and the marker fit into [maxLength], the truncated commit
    message still starts with the whole summary. *)
Theorem truncated_message_keeps_summary (summary : jsstring) (turn : LastTurn)
  (maxLength : Z)
  (Hfits : (JsString.length summary + 4 <= maxLength)%Z) :
  exists rest,
    truncateCommitMessage (composeCommitMessage summary turn) maxLength
    = summary ++ rest.
Proof.
  unfold truncateCommitMessage, composeCommitMessage.
  match goal with |- context [summary ++ ?tail] => set (body := tail) end.
  destruct (JsString.length (summary ++ body) <=? maxLength)%Z.
  - now exists body.
  - rewrite ellipsis_length, substring_prefix.
    unfold JsString.length in Hfits.
    rewrite firstn_app.
    rewrite (firstn_all2 summary) by lia.
    rewrite <- app_assoc. eauto.
Qed.

Lemma truncated_message_keeps_summary_witness :
  exists rest,
    truncateCommitMessage
      (composeCommitMessage (lit "Add a file") scenario_turn) 20
    = lit "Add a file" ++ rest.
Proof.
  apply truncated_message_keeps_summary. vm_compute. discriminate.
Defined.

(** ** Repository probes *)

(** X8. [hasChanges] never throws and answers true exactly when
    [git status --porcelain] succeeded and printed something other
    than white space; a rejected command and an output of blanks and
    newlines both count as a clean tree. *)
Theorem hasChanges_iff_visible_output (h : Host) :
  (exists b, snd (hasChanges h) = Normal b) /\
  (snd (hasChanges h) = Normal true <->
   exists stdout,
     gitStatus h = Normal stdout /\
     existsb (fun c => negb (is_space c)) stdout = true).
Proof.
  unfold hasChanges, call. destruct (gitStatus h) as [stdout|e]; cbn.
  - split; [eauto|].
    assert (Hlen : (0 <? JsString.length (trim stdout))%Z = true <->
                   existsb (fun c => negb (is_space c)) stdout = true).
    { destruct (forallb is_space stdout) eqn:Hall.
      - pose proof (proj2 (trim_nil_iff stdout) Hall) as Ht. rewrite Ht. cbn.
        split; [discriminate|]. intros Hex.
        apply existsb_exists in Hex as (c & Hin & Hc).
        rewrite forallb_forall in Hall. rewrite (Hall c Hin) in Hc. discriminate.
      - split.
        + intros _. clear -Hall. induction stdout as [|c s IH]; [discriminate|].
          cbn in *. destruct (is_space c); cbn in *; [now apply IH | reflexivity].
        + intros _. destruct (trim stdout) as [|c t] eqn:Ht.
          * apply trim_nil_iff in Ht. congruence.
          * unfold JsString.length. cbn [List.length]. apply Z.ltb_lt. lia. }
    split.
    + intros [= Hb]. exists stdout. split; [reflexivity|]. now apply Hlen.
    + intros (out & [= <-] & Hex). f_equal. now apply Hlen.
  - split; [eauto|]. split; [discriminate|].
    intros (out & Hout & _). discriminate.
Qed.

(** X9. For a directory path without surrounding white space,
    [isWorktree] answers false when git prints that path followed by
    any white space (the newline that git appends), and false as well
    when git rejects; it answers true when git prints another path. *)
Theorem isWorktree_compares_trimmed_root (h : Host) (directory : jsstring)
  (Hclean : trim directory = directory) :
  (forall ws, forallb is_space ws = true ->
              gitToplevel h = Normal (directory ++ ws) ->
              snd (isWorktree h directory) = Normal false) /\
  (forall e, gitToplevel h = Throw e ->
             snd (isWorktree h directory) = Normal false) /\
  (forall stdout, gitToplevel h = Normal stdout ->
                  trim stdout <> directory ->
                  snd (isWorktree h directory) = Normal true).
Proof.
  unfold isWorktree, call. repeat split.
  - intros ws Hws ->. cbn.
    now rewrite (trim_trailing_spaces directory ws Hws), Hclean, eqb_refl.
  - intros e ->. reflexivity.
  - intros stdout -> Hneq. cbn.
    destruct (JsString.eqb (trim stdout) directory) eqn:Heq; [|reflexivity].
    apply eqb_eq in Heq. contradiction.
Qed.

Lemma isWorktree_compares_trimmed_root_witness :
  snd (isWorktree scenario_host (lit "/repo")) = Normal false /\
  snd (isWorktree scenario_host (lit "/repo/wt")) = Normal true.
Proof.
  split.
  - apply (isWorktree_compares_trimmed_root scenario_host (lit "/repo") eq_refl)
      with (ws := nl); reflexivity.
  - apply (isWorktree_compares_trimmed_root scenario_host (lit "/repo/wt") eq_refl)
      with (stdout := lit "/repo" ++ nl); [reflexivity|].
    vm_compute. discriminate.
Defined.


(** ** The summary *)



(** ** The event handler: completion, state, commit message *)

Section HandlerFacts.

Variables (ctx : Context) (h : Host).





End HandlerFacts.


(** X14. The handler writes nothing but the dedup marker.  After any
    event the settings are those of before, and the marker is either
    the one of before or the id of the latest turn of the session
    queried; an event of another type than [session.idle] makes no call
    and changes nothing. *)
Theorem event_writes_marker_only (ctx : Context) (h : Host) (ev : Event)
  (st : PluginState) :
  let after := state_after (event ctx h ev st) in
  settings after = settings st /\
  (lastCommittedTurnID after = lastCommittedTurnID st \/
   exists turn, latestTurn h = Some turn /\
                lastCommittedTurnID after = Some (userMessageID turn)) /\
  (forall type, ev = other_event type ->
                event ctx h ev st = (st, ([], Normal tt))).
Proof.
  cbv zeta. destruct ev as [sessionID|type].
  - destruct (event_cases ctx h sessionID st)
      as [(t & c & -> & _) | (turn & before & _ & Hturn & _ & -> & _)];
      unfold state_after; cbn [fst settings lastCommittedTurnID].
    + repeat split; auto. discriminate.
    + repeat split; [right; eauto | discriminate].
  - repeat split; auto.
Qed.





(** ** Settings: file layer, tools, invariant *)





(** X19. The bound of the schema is an invariant of every interaction
    but one: from a fresh instance, after any sequence of get, set,
    reset and init calls and events in which no
    [setAutoCommitSettings] call passes a [maxCommitLength] below 100,
    [maxCommitLength] is at least 100. *)
Theorem settings_bound_kept (ctx : Context) (h : Host) (calls : list Call)
  (Hcalls : Forall respects_bound calls) :
  settings_ok (settings (run ctx (snd (AutoCommitPlugin h)) calls)).
Proof.
  apply run_ok; [exact Hcalls | apply AutoCommitPlugin_ok].
Qed.

Lemma settings_bound_kept_witness :
  settings_ok
    (settings
       (run scenario_context (snd (AutoCommitPlugin scenario_host))
          [call_set {| arg_mode := Some (lit "disabled");
                       arg_commitModel := None;
                       arg_maxCommitLength := Some 100%Z |};
           call_event scenario_host (session_idle (lit "ses"));
           call_reset host_without_file])).
Proof.
  apply settings_bound_kept.
  repeat constructor. cbn. lia.
Defined.

(** Either the mode argument is refused and nothing happens, or every
    argument given is merged. *)
Lemma setSettingsTool_cases (args : ToolArgs) (st : PluginState) :
  (exists m e,
      arg_mode args = Some m /\ ZAutoCommitMode_parse m = Throw e /\
      setSettingsTool args st
      = (st, ([], Throw (ErrorFrom "Failed to update settings: " e)))) \/
  (exists update_mode,
      match arg_mode args with
      | None => update_mode = None
      | Some m => exists v, ZAutoCommitMode_parse m = Normal v /\
                            update_mode = Some v
      end /\
      setSettingsTool args st
      = (let merged :=
           Object_assign (settings st)
             {| p_mode := update_mode;
                p_commitModel := option_map or_undefined (arg_commitModel args);
                p_maxCommitLength := arg_maxCommitLength args |} in
         ({| settings := merged; lastCommittedTurnID := lastCommittedTurnID st |},
          ([], Normal merged)))).
Proof.
  destruct (arg_mode args) as [m|] eqn:Hm.
  - destruct (ZAutoCommitMode_parse m) as [v|e] eqn:Hv.
    + right. exists (Some v). split; [eauto|].
      apply setSettingsTool_merges. rewrite Hm. eauto.
    + left. exists m, e. repeat split; auto.
      exact (setSettingsTool_invalid_mode st args m e Hm Hv).
  - right. exists None. split; [reflexivity|].
    apply setSettingsTool_merges. now rewrite Hm.
Qed.

(** X20. [setAutoCommitSettings] works on memory only: it makes no host
    call and writes no log entry, never touches the dedup marker, and
    leaves mode and [maxCommitLength] as they were when the argument is
    left out.  With a mode outside the enumeration it throws and
    applies nothing, the other arguments given included. *)
Theorem setSettingsTool_in_memory_only (args : ToolArgs) (st : PluginState) :
  let r := setSettingsTool args st in
  trace_of r = [] /\
  lastCommittedTurnID (state_after r) = lastCommittedTurnID st /\
  (arg_mode args = None -> mode (settings (state_after r)) = mode (settings st)) /\
  (arg_maxCommitLength args = None ->
   maxCommitLength (settings (state_after r)) = maxCommitLength (settings st)) /\
  (forall m e, arg_mode args = Some m -> ZAutoCommitMode_parse m = Throw e ->
               state_after r = st /\
               completion_of r = Throw (ErrorFrom "Failed to update settings: " e)).
Proof.
  cbv zeta.
  destruct (setSettingsTool_cases args st)
    as [(m & e & Hm & He & ->) | (update_mode & Hmode & ->)];
    unfold trace_of, state_after, completion_of; cbn.
  - split; [reflexivity|]. split; [reflexivity|].
    split; [reflexivity|]. split; [reflexivity|].
    intros m' e' Hm' He'. split; [reflexivity|]. congruence.
  - split; [reflexivity|]. split; [reflexivity|].
    split; [|split].
    + intros Habsent. rewrite Habsent in Hmode. now rewrite Hmode.
    + intros ->. reflexivity.
    + intros m e Hm He. exfalso. rewrite Hm in Hmode.
      destruct Hmode as (v & Hv & _). congruence.
Qed.



(** ** The change summary of the design notes *)

Section Porcelain.

Lemma split_length (sep : code_unit) (s : jsstring) :
  List.length (split sep s)
  = S (List.length (filter (fun c => unit_eqb c sep) s)).
Proof.
  induction s as [|c s IH]; [reflexivity|].
  cbn [split filter]. destruct (unit_eqb c sep); cbn [List.length].
  - now rewrite IH.
  - destruct (split sep s) as [|piece pieces]; [discriminate|].
    cbn [List.length] in *. exact IH.
Qed.

Lemma parsed_files_length (lines : list jsstring) :
  List.length (DesignNotes.parsed_files lines) = List.length lines.
Proof.
  induction lines as [|line lines IH]; [reflexivity|].
  cbn. now rewrite IH.
Qed.

Lemma existsb_nonspace_iff (s : jsstring) :
  existsb (fun c => negb (is_space c)) s = true <-> trim s <> [].
Proof.
  rewrite trim_nil_iff. split.
  - intros Hex Hall. apply existsb_exists in Hex as (c & Hin & Hc).
    rewrite forallb_forall in Hall. rewrite (Hall c Hin) in Hc. discriminate.
  - intros Hnot. induction s as [|c s IH]; [now contradiction Hnot|].
    cbn in *. destruct (is_space c); cbn in *; [now apply IH | reflexivity].
Qed.

End Porcelain.

(** X23. [parseGitStatusLine] never returns [null]: every line, also a
    short or malformed one, gives a file, with status [modified] for a
    status code outside the table.  So [checkForChanges] reports one
    file per line of the trimmed output, that is one more than the
    trimmed output has newlines; it reports changes exactly when the
    output holds something other than white space, and hands a
    rejection of the git command on to its caller. *)
Theorem checkForChanges_one_file_per_line (text : jsstring) :
  (forall line, exists f,
      DesignNotes.parseGitStatusLine line = Some f /\
      (DesignNotes.statusMap (slice line 0 (Some 2%Z)) = None ->
       DesignNotes.status f = DesignNotes.modified)) /\
  (forall e, DesignNotes.checkForChanges (Throw e) = Throw e) /\
  exists r,
    DesignNotes.checkForChanges (Normal text) = Normal r /\
    (DesignNotes.hasChanges r = true <->
     existsb (fun c => negb (is_space c)) text = true) /\
    (DesignNotes.hasChanges r = false -> DesignNotes.files r = []) /\
    (DesignNotes.hasChanges r = true ->
     List.length (DesignNotes.files r)
     = S (List.length (filter (fun c => unit_eqb c 10%N) (trim text)))).
Proof.
  split; [|split; [reflexivity|]].
  - intros line. eexists. split; [reflexivity|].
    cbn [DesignNotes.status]. now intros ->.
  - unfold DesignNotes.checkForChanges.
    pose proof (existsb_nonspace_iff text) as Hvis.
    destruct (trim text) as [|c t] eqn:Ht.
    + eexists. split; [reflexivity|]. cbn.
      repeat split; try discriminate; auto.
      intros Hex. apply Hvis in Hex. now contradiction Hex.
    + eexists. split; [reflexivity|]. cbn [DesignNotes.hasChanges DesignNotes.files].
      rewrite parsed_files_length, split_length.
      repeat split; auto; try discriminate.
      intros _. apply Hvis. discriminate.
Qed.

Section Summary.

Import DesignNotes.

Lemma status_partition (fs : list GitFile) :
  count_status (fun s => status_eqb s modified) fs
  + count_status (fun s => status_eqb s added || status_eqb s untracked) fs
  + count_status (fun s => status_eqb s deleted) fs
  + count_status (fun s => status_eqb s renamed) fs
  = List.length fs.
Proof.
  unfold count_status. induction fs as [|f fs IH]; [reflexivity|].
  cbn [filter List.length]. destruct (status f); cbn; lia.
Qed.

Lemma join_starts_with (sep x : jsstring) (l : list jsstring) :
  exists tail, join sep (x :: l) = x ++ tail.
Proof.
  destruct l as [|y l]; cbn [join].
  - exists []. now rewrite app_nil_r.
  - eauto.
Qed.

End Summary.

(** X24. [generateSummary] sorts every file into exactly one of its
    four groups (untracked files count as added), so the four counts
    add up to the number of files; and it returns ["no changes"]
    exactly for the empty list: for a list with a file the summary
    starts with one of the four count phrases. *)
Theorem generateSummary_groups (fs : list DesignNotes.GitFile) :
  DesignNotes.count_status
    (fun s => DesignNotes.status_eqb s DesignNotes.modified) fs
  + DesignNotes.count_status
      (fun s => DesignNotes.status_eqb s DesignNotes.added
                || DesignNotes.status_eqb s DesignNotes.untracked) fs
  + DesignNotes.count_status
      (fun s => DesignNotes.status_eqb s DesignNotes.deleted) fs
  + DesignNotes.count_status
      (fun s => DesignNotes.status_eqb s DesignNotes.renamed) fs
  = List.length fs /\
  (DesignNotes.generateSummary fs = lit "no changes" <-> fs = []) /\
  (fs <> [] ->
   exists verb n tail,
     In verb ["modified"; "added"; "deleted"; "renamed"]%string /\
     (0 < n)%nat /\
     DesignNotes.generateSummary fs = DesignNotes.count_phrase verb n ++ tail).
Proof.
  pose proof (status_partition fs) as Hsum.
  split; [exact Hsum|].
  assert (Hphrase : fs <> [] ->
            exists verb n tail,
              In verb ["modified"; "added"; "deleted"; "renamed"]%string /\
              (0 < n)%nat /\
              DesignNotes.generateSummary fs
              = DesignNotes.count_phrase verb n ++ tail).
  { intros Hne. destruct fs as [|f fs']; [congruence|].
    unfold DesignNotes.generateSummary.
    set (all := f :: fs') in *.
    destruct (DesignNotes.count_status
                (fun s => DesignNotes.status_eqb s DesignNotes.modified) all)
      as [|nm] eqn:Hm.
    - destruct (DesignNotes.count_status
                  (fun s => DesignNotes.status_eqb s DesignNotes.added
                            || DesignNotes.status_eqb s DesignNotes.untracked) all)
        as [|na] eqn:Ha.
      + destruct (DesignNotes.count_status
                    (fun s => DesignNotes.status_eqb s DesignNotes.deleted) all)
          as [|nd] eqn:Hd.
        * destruct (DesignNotes.count_status
                      (fun s => DesignNotes.status_eqb s DesignNotes.renamed) all)
            as [|nr] eqn:Hr.
          -- cbn in Hsum. lia.
          -- cbn [Nat.ltb Nat.leb app].
             destruct (join_starts_with (lit ", ")
                         (DesignNotes.count_phrase "renamed" (S nr)) [])
               as [tail Ht].
             exists "renamed"%string, (S nr), tail.
             split; [cbn; auto|]. split; [lia | exact Ht].
        * cbn [Nat.ltb Nat.leb app].
          match goal with
          | |- context [join ?sep (?x :: ?l)] =>
              destruct (join_starts_with sep x l) as [tail Ht]
          end.
          exists "deleted"%string, (S nd), tail.
          split; [cbn; auto|]. split; [lia | exact Ht].
      + cbn [Nat.ltb Nat.leb app].
        match goal with
        | |- context [join ?sep (?x :: ?l)] =>
            destruct (join_starts_with sep x l) as [tail Ht]
        end.
        exists "added"%string, (S na), tail.
        split; [cbn; auto|]. split; [lia | exact Ht].
    - cbn [Nat.ltb Nat.leb app].
      match goal with
      | |- context [join ?sep (?x :: ?l)] =>
          destruct (join_starts_with sep x l) as [tail Ht]
      end.
      exists "modified"%string, (S nm), tail.
      split; [cbn; auto|]. split; [lia | exact Ht]. }
  split; [|exact Hphrase].
  split; [|intros ->; reflexivity].
  intros Hno. destruct fs as [|f fs']; [reflexivity|]. exfalso.
  destruct Hphrase as (verb & n & tail & Hverb & _ & Heq); [discriminate|].
  rewrite Hno in Heq. unfold DesignNotes.count_phrase in Heq.
  cbn in Hverb.
  destruct Hverb as [<-|[<-|[<-|[<-|[]]]]]; cbn in Heq; discriminate.
Qed.


(** * The plugin with a logger that may reject *)

Arguments FallibleLog.generateCommitSummary : simpl never.
Arguments FallibleLog.makeCommit : simpl never.
Arguments FallibleLog.loadSettingsFromFile : simpl never.
Arguments FallibleLog.commitTurn : simpl never.

(** ** The definitions above are the ones of this part at a logger that
    resolves *)

Section Agreement.

Variable logger : FallibleLog.Logger.
Hypothesis Hresolves : FallibleLog.resolves logger.

Lemma log_agrees (level : LogLevel) (message : string) :
  FallibleLog.log logger level message = log level message.
Proof. unfold FallibleLog.log, log. now rewrite Hresolves. Qed.

Lemma generateCommitSummary_agrees (h : Host) (turn : LastTurn)
  (s : AutoCommitSettings) :
  FallibleLog.generateCommitSummary logger h turn s
  = generateCommitSummary h turn s.
Proof.
  unfold FallibleLog.generateCommitSummary, generateCommitSummary.
  now rewrite !log_agrees.
Qed.

Lemma makeCommit_agrees (h : Host) (message : jsstring) :
  FallibleLog.makeCommit logger h message = makeCommit h message.
Proof.
  unfold FallibleLog.makeCommit, makeCommit. now rewrite !log_agrees.
Qed.

Lemma loadSettingsFromFile_agrees (h : Host) :
  FallibleLog.loadSettingsFromFile logger h = loadSettingsFromFile h.
Proof.
  unfold FallibleLog.loadSettingsFromFile, loadSettingsFromFile.
  now rewrite !log_agrees.
Qed.

Lemma calls_app (t1 t2 : list FallibleLog.Obs) :
  FallibleLog.calls (t1 ++ t2) = FallibleLog.calls t1 ++ FallibleLog.calls t2.
Proof.
  induction t1 as [|[e|i] t1 IH]; cbn; [reflexivity | now rewrite IH | exact IH].
Qed.

Lemma calls_Called (t : list Effect) :
  FallibleLog.calls (map FallibleLog.Called t) = t.
Proof. induction t as [|e t IH]; cbn; [reflexivity | now rewrite IH]. Qed.

(** State, host calls and completion of a run of the two embeddings. *)
Lemma commitTurn_agrees (h : Host) (turn : LastTurn) (st : PluginState) :
  fst (FallibleLog.commitTurn logger h turn st) = fst (commitTurn h turn st) /\
  FallibleLog.calls (fst (snd (FallibleLog.commitTurn logger h turn st)))
  = fst (snd (commitTurn h turn st)) /\
  snd (snd (FallibleLog.commitTurn logger h turn st))
  = snd (snd (commitTurn h turn st)).
Proof.
  destruct (hasChanges_answers h) as [dirty Hd].
  destruct (generateCommitSummary_returns h turn (settings st))
    as (ts & summary & Hs & _).
  destruct (makeCommit_returns h
              (truncateCommitMessage (composeCommitMessage summary turn)
                 (maxCommitLength (settings st))))
    as (tc & committed & Hm & _).
  unfold FallibleLog.commitTurn, commitTurn,
    FallibleLog.bindM, FallibleLog.try_catchM, FallibleLog.lift,
    FallibleLog.get_settings, FallibleLog.retM,
    bindM, try_catchM, lift, get_settings, retM.
  rewrite !log_agrees, Hd. unfold log, call, retW.
  destruct dirty; cbn; [|repeat split].
  rewrite generateCommitSummary_agrees, Hs. cbn.
  rewrite makeCommit_agrees, Hm. cbn.
  destruct committed; cbn;
    rewrite !calls_app, !calls_Called; cbn;
    rewrite ?calls_app, ?calls_Called; repeat split.
Qed.

Lemma event_agrees (ctx : Context) (h : Host) (ev : Event) (st : PluginState) :
  fst (FallibleLog.event logger ctx h ev st) = fst (event ctx h ev st) /\
  FallibleLog.calls (fst (snd (FallibleLog.event logger ctx h ev st)))
  = fst (snd (event ctx h ev st)) /\
  snd (snd (FallibleLog.event logger ctx h ev st))
  = snd (snd (event ctx h ev st)).
Proof.
  destruct ev as [sessionID|type]; [|repeat split].
  destruct (isWorktree_answers h (ctx_worktree ctx)) as [inside Hw].
  unfold FallibleLog.event, event,
    FallibleLog.bindM, FallibleLog.lift, FallibleLog.get_settings,
    FallibleLog.get_lastCommittedTurnID, FallibleLog.set_lastCommittedTurnID,
    bindM, lift, get_settings, get_lastCommittedTurnID, set_lastCommittedTurnID.
  rewrite !log_agrees, Hw. unfold log, call, retW. cbn.
  destruct (mode_eqb (mode (settings st)) disabled); cbn; [repeat split|].
  destruct (mode_eqb (mode (settings st)) worktree && negb inside); cbn;
    [repeat split|].
  destruct (sessionMessages h) as [response|e]; cbn; [|repeat split].
  destruct (getLastTurn (data_or_empty response)) as [turn|]; cbn; [|repeat split].
  destruct (same_turn (userMessageID turn) (lastCommittedTurnID st)); cbn;
    [repeat split|].
  set (marked := {| settings := settings st;
                    lastCommittedTurnID := Some (userMessageID turn) |}).
  destruct (commitTurn_agrees h turn marked) as (Hst & Hcalls & Hc).
  destruct (FallibleLog.commitTurn logger h turn marked) as [st1 [t1 c1]].
  destruct (commitTurn h turn marked) as [st0 [t0 c0]].
  cbn in *. subst. repeat split.
Qed.

End Agreement.

(** ** The top-level functions under any logger *)

Section AnyLogger.

Variable logger : FallibleLog.Logger.

Lemma no_write_Called (t : list Effect) :
  forallb (fun o => negb (FallibleLog.is_write o)) (map FallibleLog.Called t) = true.
Proof. induction t as [|e t IH]; cbn; [reflexivity | exact IH]. Qed.

(** [generateCommitSummary] stages nothing, commits nothing, and throws
    only the error of a rejected log entry: the first one, which stands
    before the [try], or the one of the [catch] block. *)
Lemma generateCommitSummary_any_logger (h : Host) (turn : LastTurn)
  (s : AutoCommitSettings) :
  exists t c,
    FallibleLog.generateCommitSummary logger h turn s = (t, c) /\
    commit_attempts t = 0 /\
    (forall m, ~ In (GitCommit m) t) /\
    (forall e, c = Throw e ->
       logger LInfo "Generating commit summary"%string = Throw e \/
       logger LError "Failed to generate commit summary using temporary session"%string
       = Throw e).
Proof.
  unfold FallibleLog.generateCommitSummary, FallibleLog.log, call.
  destruct (logger LInfo "Generating commit summary"%string) as [[]|e0] eqn:Hfirst;
    cbn -[trim join nl lit summaryPrompt].
  2: { do 2 eexists. split; [reflexivity|]. repeat split.
       - intros m [Hin|[]]. discriminate.
       - intros e [= <-]. auto. }
  destruct (logger LError
              "Failed to generate commit summary using temporary session"%string)
    as [[]|e1] eqn:Hcatch;
    destruct (sessionCreate h) as [[session|]|e]; cbn -[trim join nl lit summaryPrompt];
    try (destruct (sessionPrompt h) as [data|e']; cbn -[trim join nl lit summaryPrompt];
         try (destruct (falsy (summaryText data)); cbn -[trim join nl lit summaryPrompt];
              try (destruct (sessionDelete h); cbn -[trim join nl lit summaryPrompt];
                   try (destruct (logger LInfo "Commit summary generated"%string) as [[]|e2];
                        cbn -[trim join nl lit summaryPrompt]))));
    do 2 eexists; (split; [reflexivity|]); repeat split;
    try (intros m Hin; cbn in Hin; intuition discriminate);
    try (intros e3 Hc; discriminate);
    try (intros e3 [= <-]; auto).
Qed.

(** [makeCommit] stages at most once and throws only the error of a
    rejected log entry of one of its [catch] blocks. *)
Lemma makeCommit_any_logger (h : Host) (message : jsstring) :
  exists t c,
    FallibleLog.makeCommit logger h message = (t, c) /\
    (commit_attempts t <= 1)%nat /\
    (forall m, In (GitCommit m) t -> m = message /\ gitAdd h = Normal tt) /\
    (c = Normal true -> gitAdd h = Normal tt /\ gitCommit h = Normal tt) /\
    (forall e, c = Throw e ->
       logger LError "Failed to stage changes"%string = Throw e \/
       logger LError "Failed to commit changes"%string = Throw e).
Proof.
  unfold FallibleLog.makeCommit, FallibleLog.log, call.
  destruct (logger LInfo "Staging all changes"%string) as [[]|e0]; cbn;
    try (destruct (gitAdd h) as [[]|ea]; cbn;
         try (destruct (logger LInfo "Creating commit"%string) as [[]|e1]; cbn;
              try (destruct (gitCommit h) as [[]|ec]; cbn;
                   try (destruct (logger LInfo "Commit created successfully"%string)
                          as [[]|e2]; cbn))));
    try (destruct (logger LError "Failed to stage changes"%string) as [[]|e3] eqn:Hs; cbn);
    try (destruct (logger LError "Failed to commit changes"%string) as [[]|e4] eqn:Hc; cbn);
    do 2 eexists; (split; [reflexivity|]); (split; [cbn; lia|]);
    (split; [intros m Hin; cbn in Hin;
             repeat (destruct Hin as [Hin|Hin]; try discriminate);
             try contradiction; split; congruence|]);
    (split; [intros Ht; try discriminate; auto|]);
    intros e5 He5; try discriminate; injection He5 as <-; auto.
Qed.

End AnyLogger.

(** ** The event handler under any logger *)

Section AnyLoggerHandler.

Variable logger : FallibleLog.Logger.

Lemma gate_from_tests (ctx : Context) (h : Host) (st : PluginState)
  (inside : bool) :
  isWorktree h (ctx_worktree ctx) = ([GitRevParse], Normal inside) ->
  mode_eqb (mode (settings st)) disabled = false ->
  mode_eqb (mode (settings st)) worktree && negb inside = false ->
  passes_gate ctx h st.
Proof.
  intros Hw Hon Hin. unfold passes_gate. rewrite Hw.
  destruct (mode (settings st)), inside; cbn in *; congruence || exact I.
Qed.

(** The commit pipeline never writes to the plugin state, stages at
    most once, and throws only the error of a rejected log entry. *)
Lemma commitTurn_any_logger (h : Host) (turn : LastTurn) (st : PluginState) :
  exists t c,
    FallibleLog.commitTurn logger h turn st = (st, (t, c)) /\
    (commit_attempts (FallibleLog.calls t) <= 1)%nat /\
    forallb (fun o => negb (FallibleLog.is_write o)) t = true /\
    (forall e, c = Throw e -> exists level message, logger level message = Throw e).
Proof.
  destruct (hasChanges_answers h) as [dirty Hd].
  destruct (generateCommitSummary_any_logger logger h turn (settings st))
    as (ts & cs & Hs & Hts & _ & _).
  unfold commit_attempts in Hts.
  unfold FallibleLog.commitTurn, FallibleLog.bindM, FallibleLog.try_catchM,
    FallibleLog.lift, FallibleLog.get_settings, FallibleLog.retM,
    FallibleLog.log, call, commit_attempts.
  rewrite Hd.
  destruct (logger LError "Error during auto-commit"%string) as [[]|e0] eqn:Hl0;
    (destruct dirty; cbn;
     [ destruct (logger LInfo
                   "Found uncommitted changes, generating commit summary"%string)
         as [[]|e] eqn:Hl; cbn;
       [ rewrite Hs; cbn;
         destruct cs as [summary|es]; cbn;
         [ destruct (logger LInfo "Created commit message"%string)
             as [[]|e1] eqn:Hl1; cbn;
           [ destruct (makeCommit_any_logger logger h
                         (truncateCommitMessage (composeCommitMessage summary turn)
                            (maxCommitLength (settings st))))
               as (tc & cc & Hm & Htc & _ & _ & _);
             unfold commit_attempts in Htc;
             rewrite Hm; cbn;
             destruct cc as [[]|ec]; cbn;
             [ destruct (logger LInfo "Committed changes successfully"%string)
                 as [[]|e2] eqn:Hl2; cbn
             | | ]
           | ]
         | ]
       | ]
     | destruct (logger LInfo "No changes to commit"%string) as [[]|e] eqn:Hl; cbn ]);
    do 2 eexists; (split; [reflexivity|]);
    (split;
     [ repeat (progress (cbn; rewrite ?map_app, ?calls_app, ?calls_Called,
                           ?filter_app, ?length_app)); lia
     | split;
       [ repeat (progress (cbn; rewrite ?map_app, ?forallb_app, ?no_write_Called));
         reflexivity
       | intros e' He'; try discriminate; injection He' as <-; eauto ] ]).
Qed.

(** Every run of the handler, under any logger, is of one of two
    kinds.  Either it makes no pipeline call, writes nothing and leaves
    the state alone.  Or the session query answered with a new turn:
    then the write of the marker stands right behind the query, no
    pipeline call and no write stands before the query, no further
    write follows, and the state ends with the marker on the turn,
    whatever the calls behind the write do. *)
Lemma event_any_logger (ctx : Context) (h : Host) (sessionID : jsstring)
  (st : PluginState) :
  (exists t c,
      FallibleLog.event logger ctx h (session_idle sessionID) st = (st, (t, c)) /\
      forallb (fun o => negb (FallibleLog.is_pipeline_obs o
                              || FallibleLog.is_write o)) t = true /\
      (forall e, c = Throw e ->
         (passes_gate ctx h st /\ sessionMessages h = Throw e) \/
         exists level message, logger level message = Throw e) /\
      (In (FallibleLog.Called (SessionMessages sessionID)) t ->
       forall turn, latestTurn h = Some turn ->
                    lastCommittedTurnID st = Some (userMessageID turn))) \/
  (exists turn before after c,
      passes_gate ctx h st /\
      latestTurn h = Some turn /\
      same_turn (userMessageID turn) (lastCommittedTurnID st) = false /\
      FallibleLog.event logger ctx h (session_idle sessionID) st
      = ({| settings := settings st;
            lastCommittedTurnID := Some (userMessageID turn) |},
         (before
          ++ FallibleLog.Called (SessionMessages sessionID)
          :: FallibleLog.Wrote (userMessageID turn) :: after, c)) /\
      forallb (fun o => negb (FallibleLog.is_pipeline_obs o
                              || FallibleLog.is_write o)) before = true /\
      forallb (fun o => negb (FallibleLog.is_write o)) after = true /\
      (commit_attempts (FallibleLog.calls after) <= 1)%nat /\
      (forall e, c = Throw e ->
                 exists level message, logger level message = Throw e)).
Proof.
  destruct (isWorktree_answers h (ctx_worktree ctx)) as [inside Hw].
  unfold FallibleLog.event, FallibleLog.bindM, FallibleLog.lift,
    FallibleLog.get_settings, FallibleLog.get_lastCommittedTurnID,
    FallibleLog.set_lastCommittedTurnID, FallibleLog.log, call.
  rewrite Hw. cbn.
  assert (Hlog : forall (t : list FallibleLog.Obs) (e0 : Exn) level message,
             logger level message = Throw e0 ->
             forallb (fun o => negb (FallibleLog.is_pipeline_obs o
                                     || FallibleLog.is_write o)) t = true ->
             ~ In (FallibleLog.Called (SessionMessages sessionID)) t ->
             exists t' c,
               (st, (t, @Throw unit e0)) = (st, (t', c)) /\
               forallb (fun o => negb (FallibleLog.is_pipeline_obs o
                                       || FallibleLog.is_write o)) t' = true /\
               (forall e, c = Throw e ->
                  (passes_gate ctx h st /\ sessionMessages h = Throw e) \/
                  exists level message, logger level message = Throw e) /\
               (In (FallibleLog.Called (SessionMessages sessionID)) t' ->
                forall turn, latestTurn h = Some turn ->
                             lastCommittedTurnID st = Some (userMessageID turn))).
  { intros t e0 level message Hrej Hquiet Hnoq. exists t, (Throw e0).
    repeat split; auto.
    - intros e [= <-]. right. eauto.
    - intros Hin. contradiction. }
  assert (Hdone : forall (t : list FallibleLog.Obs),
             forallb (fun o => negb (FallibleLog.is_pipeline_obs o
                                     || FallibleLog.is_write o)) t = true ->
             (In (FallibleLog.Called (SessionMessages sessionID)) t ->
              forall turn, latestTurn h = Some turn ->
                           lastCommittedTurnID st = Some (userMessageID turn)) ->
             exists t' c,
               (st, (t, Normal tt)) = (st, (t', c)) /\
               forallb (fun o => negb (FallibleLog.is_pipeline_obs o
                                       || FallibleLog.is_write o)) t' = true /\
               (forall e, c = Throw e ->
                  (passes_gate ctx h st /\ sessionMessages h = Throw e) \/
                  exists level message, logger level message = Throw e) /\
               (In (FallibleLog.Called (SessionMessages sessionID)) t' ->
                forall turn, latestTurn h = Some turn ->
                             lastCommittedTurnID st = Some (userMessageID turn))).
  { intros t Hquiet Hq. exists t, (Normal tt). repeat split; auto. discriminate. }
  destruct (logger LInfo "Session idle event received"%string) as [[]|e1] eqn:L1; cbn.
  2: { left. eapply Hlog; [exact L1 | reflexivity | cbn; intuition discriminate]. }
  destruct (mode_eqb (mode (settings st)) disabled) eqn:Hon; cbn.
  { destruct (logger LInfo "Auto-commit disabled"%string) as [[]|e2] eqn:L2; cbn; left.
    - apply Hdone; [reflexivity | cbn; intuition discriminate].
    - eapply Hlog; [exact L2 | reflexivity | cbn; intuition discriminate]. }
  destruct (logger LInfo "Checked if in worktree"%string) as [[]|e2] eqn:L2; cbn.
  2: { left. eapply Hlog; [exact L2 | reflexivity | cbn; intuition discriminate]. }
  destruct (mode_eqb (mode (settings st)) worktree && negb inside) eqn:Hin; cbn.
  { destruct (logger LInfo "Not in worktree, skipping commit"%string)
      as [[]|e3] eqn:L3; cbn; left.
    - apply Hdone; [reflexivity | cbn; intuition discriminate].
    - eapply Hlog; [exact L3 | reflexivity | cbn; intuition discriminate]. }
  pose proof (gate_from_tests ctx h st inside Hw Hon Hin) as Hgate.
  destruct (logger LInfo "Fetching session messages"%string) as [[]|e3] eqn:L3; cbn.
  2: { left. eapply Hlog; [exact L3 | reflexivity | cbn; intuition discriminate]. }
  unfold latestTurn.
  destruct (sessionMessages h) as [response|eq] eqn:Hr; cbn.
  2: { left. do 2 eexists. split; [reflexivity|]. repeat split.
       - intros e [= <-]. left. auto.
       - intros _ turn Habs. discriminate. }
  destruct (getLastTurn (data_or_empty response)) as [turn|] eqn:Hl; cbn.
  2: { destruct (logger LInfo "No turn found in messages"%string)
         as [[]|e4] eqn:L4; cbn; left;
         do 2 eexists; (split; [reflexivity|]); repeat split;
         try discriminate; try (intros e [= <-]; right; eauto). }
  destruct (same_turn (userMessageID turn) (lastCommittedTurnID st)) eqn:Hs; cbn.
  { apply same_turn_true in Hs.
    destruct (logger LInfo "Turn already committed, skipping"%string)
      as [[]|e4] eqn:L4; cbn; left;
      do 2 eexists; (split; [reflexivity|]); repeat split;
      try discriminate; try (intros e [= <-]; right; eauto);
      intros _ turn' [= <-]; exact Hs. }
  right. exists turn.
  set (marked := {| settings := settings st;
                    lastCommittedTurnID := Some (userMessageID turn) |}).
  exists [FallibleLog.Called (AppLog LInfo "Session idle event received");
          FallibleLog.Called GitRevParse;
          FallibleLog.Called (AppLog LInfo "Checked if in worktree");
          FallibleLog.Called (AppLog LInfo "Fetching session messages")].
  destruct (logger LInfo "Processing new turn"%string) as [[]|e4] eqn:L4; cbn.
  - destruct (commitTurn_any_logger h turn marked) as (t & c & Heq & Hn & Hw' & Hc).
    rewrite Heq.
    exists (FallibleLog.Called (AppLog LInfo "Processing new turn") :: t), c.
    repeat split; auto.
  - exists [FallibleLog.Called (AppLog LInfo "Processing new turn")], (Throw e4).
    repeat split; auto.
    intros e [= <-]. eauto.
Qed.

End AnyLoggerHandler.

(** ** Deduplication under any logger *)

Section AnyLoggerDedup.

Variable ctx : Context.

Lemma idle_no_attempt (t : list FallibleLog.Obs) :
  FallibleLog.idle t -> commit_attempts (FallibleLog.calls t) = 0.
Proof.
  unfold FallibleLog.idle, commit_attempts.
  induction t as [|[e|i] t IH]; cbn; [reflexivity | |].
  - intros H. apply andb_prop in H as [He Ht].
    destruct e; cbn in *; try discriminate; auto.
  - discriminate.
Qed.

Lemma idle_excludes (t : list FallibleLog.Obs) (o : FallibleLog.Obs) :
  FallibleLog.idle t -> In o t ->
  (FallibleLog.is_pipeline_obs o || FallibleLog.is_write o) = false.
Proof.
  unfold FallibleLog.idle. rewrite forallb_forall. intros H Hin.
  apply negb_true_iff. now apply H.
Qed.

Lemma event_attempts_any_logger (logger : FallibleLog.Logger) (h : Host)
  (sessionID : jsstring) (st : PluginState) :
  (commit_attempts
     (FallibleLog.calls
        (fst (snd (FallibleLog.event logger ctx h (session_idle sessionID) st))))
   <= 1)%nat.
Proof.
  destruct (event_any_logger logger ctx h sessionID st)
    as [(t & c & -> & Hidle & _) |
        (turn & before & after & c & _ & _ & _ & -> & Hidle & _ & Hn & _)];
    cbn [fst snd].
  - rewrite (idle_no_attempt t Hidle). lia.
  - rewrite calls_app, commit_attempts_app, (idle_no_attempt before Hidle).
    cbn. exact Hn.
Qed.

(** A run whose latest turn is the marked one is a skip, whatever the
    logger does. *)
Lemma event_on_marked_turn_any_logger (logger : FallibleLog.Logger) (h : Host)
  (sessionID : jsstring) (st : PluginState) (turn : LastTurn) :
  latestTurn h = Some turn ->
  lastCommittedTurnID st = Some (userMessageID turn) ->
  fst (FallibleLog.event logger ctx h (session_idle sessionID) st) = st /\
  FallibleLog.idle
    (fst (snd (FallibleLog.event logger ctx h (session_idle sessionID) st))).
Proof.
  intros Hturn Hmarked.
  destruct (event_any_logger logger ctx h sessionID st)
    as [(t & c & -> & Hidle & _) |
        (turn' & before & after & c & _ & Hturn' & Hnew & _)].
  - split; [reflexivity | exact Hidle].
  - rewrite Hturn in Hturn'. injection Hturn' as <-.
    apply same_turn_true in Hmarked. congruence.
Qed.

End AnyLoggerDedup.

(** C1, as the code has it.  The marker is one slot holding the id of
    the turn processed last.  For two [session.idle] events handled in
    succession whose latest turn has the same [userMessageID], under
    any behaviour of git, of the session client and of the logger:
    (1) if the first run makes a pipeline call (change check, summary
    session, staging, commit) or writes the marker at all, then its
    sequence of host calls and writes has the write of that id directly
    behind the session query, with no pipeline call and no write before
    the query and no second write after it: the marker is set
    immediately after the dedup check and before the change check, the
    summary and the commit; (2) once the first run has made the session
    query, the marker holds that id at the end of the run, whatever the
    later calls answer, a rejected log entry included; (3) when the
    marker holds that id the second run is a skip: no pipeline call, no
    write, state unchanged; (4) the two runs together make at most one
    commit attempt. *)
Theorem dedup_write_then_skip (logger1 logger2 : FallibleLog.Logger)
  (ctx : Context) (h1 h2 : Host) (sid1 sid2 : jsstring) (st : PluginState)
  (turn1 turn2 : LastTurn)
  (Hturn1 : latestTurn h1 = Some turn1)
  (Hturn2 : latestTurn h2 = Some turn2)
  (Hsame : userMessageID turn2 = userMessageID turn1) :
  let r1 := FallibleLog.event logger1 ctx h1 (session_idle sid1) st in
  let r2 := FallibleLog.event logger2 ctx h2 (session_idle sid2) (fst r1) in
  (forall o, In o (fst (snd r1)) ->
             (FallibleLog.is_pipeline_obs o || FallibleLog.is_write o) = true ->
             exists before after,
               fst (snd r1)
               = before ++ FallibleLog.Called (SessionMessages sid1)
                 :: FallibleLog.Wrote (userMessageID turn1) :: after /\
               FallibleLog.idle before /\
               forallb (fun o' => negb (FallibleLog.is_write o')) after = true) /\
  (In (FallibleLog.Called (SessionMessages sid1)) (fst (snd r1)) ->
   lastCommittedTurnID (fst r1) = Some (userMessageID turn1)) /\
  (lastCommittedTurnID (fst r1) = Some (userMessageID turn1) ->
   FallibleLog.idle (fst (snd r2)) /\ fst r2 = fst r1) /\
  (commit_attempts (FallibleLog.calls (fst (snd r1)))
   + commit_attempts (FallibleLog.calls (fst (snd r2))) <= 1)%nat.
Proof.
  cbv zeta.
  assert (Hsecond :
            lastCommittedTurnID
              (fst (FallibleLog.event logger1 ctx h1 (session_idle sid1) st))
            = Some (userMessageID turn1) ->
            FallibleLog.idle
              (fst (snd (FallibleLog.event logger2 ctx h2 (session_idle sid2)
                           (fst (FallibleLog.event logger1 ctx h1
                                   (session_idle sid1) st))))) /\
            fst (FallibleLog.event logger2 ctx h2 (session_idle sid2)
                   (fst (FallibleLog.event logger1 ctx h1 (session_idle sid1) st)))
            = fst (FallibleLog.event logger1 ctx h1 (session_idle sid1) st)).
  { intros Hmarked. rewrite <- Hsame in Hmarked.
    destruct (event_on_marked_turn_any_logger ctx logger2 h2 sid2 _ turn2
                Hturn2 Hmarked); auto. }
  pose proof (event_attempts_any_logger ctx logger2 h2 sid2
                (fst (FallibleLog.event logger1 ctx h1 (session_idle sid1) st)))
    as Hle2.
  pose proof (event_attempts_any_logger ctx logger1 h1 sid1 st) as Hle1.
  destruct (event_any_logger logger1 ctx h1 sid1 st)
    as [(t & c & Hev & Hidle & _ & Hq) |
        (turn & before & after & c & _ & Hturn & _ & Hev & Hidle & Hafter & _ & _)].
  - rewrite Hev in *. cbn [fst snd] in *.
    split; [|split; [|split; [exact Hsecond|]]].
    + intros o Hin Hflag. rewrite (idle_excludes t o Hidle Hin) in Hflag.
      discriminate.
    + intros Hin. now apply Hq.
    + rewrite (idle_no_attempt t Hidle). lia.
  - rewrite Hturn1 in Hturn. injection Hturn as <-.
    assert (Hmarked :
              lastCommittedTurnID
                (fst (FallibleLog.event logger1 ctx h1 (session_idle sid1) st))
              = Some (userMessageID turn1)) by (now rewrite Hev).
    destruct (Hsecond Hmarked) as [Hidle2 _].
    split; [|split; [auto | split; [exact Hsecond|]]].
    + intros o _ _. exists before, after. rewrite Hev. auto.
    + rewrite (idle_no_attempt _ Hidle2). lia.
Qed.

Lemma dedup_write_then_skip_witness :
  lastCommittedTurnID
    (fst (FallibleLog.event (FallibleLog.rejecting "Processing new turn")
            scenario_context scenario_host (session_idle (lit "ses"))
            enabled_state))
  = Some (lit "u1") /\
  FallibleLog.idle
    (fst (snd (FallibleLog.event FallibleLog.quiet scenario_context scenario_host
                 (session_idle (lit "ses"))
                 (fst (FallibleLog.event
                         (FallibleLog.rejecting "Processing new turn")
                         scenario_context scenario_host (session_idle (lit "ses"))
                         enabled_state))))).
Proof.
  destruct (dedup_write_then_skip
              (FallibleLog.rejecting "Processing new turn") FallibleLog.quiet
              scenario_context scenario_host scenario_host
              (lit "ses") (lit "ses") enabled_state scenario_turn scenario_turn
              eq_refl eq_refl eq_refl)
    as (_ & Hmark & Hskip & _).
  assert (Hquery : In (FallibleLog.Called (SessionMessages (lit "ses")))
                      (fst (snd (FallibleLog.event
                                   (FallibleLog.rejecting "Processing new turn")
                                   scenario_context scenario_host
                                   (session_idle (lit "ses")) enabled_state))))
    by (vm_compute; do 4 right; left; reflexivity).
  split; [exact (Hmark Hquery) | exact (proj1 (Hskip (Hmark Hquery)))].
Defined.

(** ** The summary fallback and the logger *)

(** With a healthy logger, a handler that got as far as the summary
    stages the tree when the delegate fails and, staging done, commits
    with the message composed from the fallback summary. *)
Lemma event_fallback_commit (ctx : Context) (h : Host) (sessionID : jsstring)
  (st : PluginState) (turn : LastTurn) :
  delegate_fails h ->
  reaches_summary ctx h st turn ->
  In GitAddAll (trace_of (event ctx h (session_idle sessionID) st)) /\
  (gitAdd h = Normal tt ->
   In (GitCommit
         (truncateCommitMessage
            (composeCommitMessage (lit "Auto-commit") turn)
            (maxCommitLength (settings st))))
      (trace_of (event ctx h (session_idle sessionID) st))).
Proof.
  intros Hfail (Hgate & Hturn & Hnew & Hdirty).
  destruct (event_new_turn ctx h sessionID st turn Hgate Hturn Hnew)
    as (before & Hev & _).
  cbv zeta in Hev. rewrite Hev. unfold trace_of at 1 3. cbn [fst snd].
  set (marked := {| settings := settings st;
                    lastCommittedTurnID := Some (userMessageID turn) |}).
  destruct (commitTurn_shape h turn marked) as (t & Heq & _ & Hshape).
  destruct (Hshape Hdirty) as (ts & summary & tc & b & tl & Hs & Hm & -> & _).
  pose proof (generateCommitSummary_fallback h turn (settings marked) Hfail) as Hfb.
  rewrite Hs in Hfb. cbn [snd] in Hfb. injection Hfb as ->.
  destruct (makeCommit_returns h
              (truncateCommitMessage
                 (composeCommitMessage (lit "Auto-commit") turn)
                 (maxCommitLength (settings marked))))
    as (tc' & b' & Hm' & _ & Hadd & Hcommit).
  rewrite Hm in Hm'. injection Hm' as <- <-.
  unfold trace_of. rewrite Heq. cbn [fst snd].
  split; [|intros Hstaged; specialize (Hcommit Hstaged)];
    apply in_or_app; right; right; right;
    apply in_or_app; right; right;
    apply in_or_app; left; assumption.
Qed.

Lemma generateCommitSummary_fallback_any_logger (logger : FallibleLog.Logger)
  (h : Host) (turn : LastTurn) (s : AutoCommitSettings) :
  logger LInfo "Generating commit summary"%string = Normal tt ->
  logger LError "Failed to generate commit summary using temporary session"%string
  = Normal tt ->
  delegate_fails h ->
  snd (FallibleLog.generateCommitSummary logger h turn s)
  = Normal (lit "Auto-commit").
Proof.
  intros Hfirst Hcatch Hfail.
  unfold FallibleLog.generateCommitSummary, FallibleLog.log, call.
  rewrite Hfirst, Hcatch.
  destruct Hfail as [e He | He | session e Hc Hp | session data Hc Hp Hf
                    | session e Hc Hd].
  - rewrite He. reflexivity.
  - rewrite He. reflexivity.
  - rewrite Hc, Hp. reflexivity.
  - rewrite Hc, Hp. cbn -[trim join nl lit summaryPrompt]. rewrite Hf. reflexivity.
  - rewrite Hc, Hd.
    destruct (sessionPrompt h) as [data|e']; cbn -[trim join nl lit summaryPrompt];
      [|reflexivity].
    destruct (falsy (summaryText data)); reflexivity.
Qed.

(** C9, as the code has it.  [generateCommitSummary] throws only the
    error of a rejected [client.app.log] call: of its first entry,
    which stands before the [try], or of the entry of its [catch]
    block.  When these two entries resolve it completes normally on
    every host and every input, and returns exactly ["Auto-commit"]
    when the delegate fails (the temporary session cannot be created,
    the prompt rejects, no text comes back, or the cleanup rejects).
    With a logger that resolves, an event handler that got as far as
    the summary then stages the tree and, staging done, commits with
    the message composed from the fallback summary and truncated to
    [maxCommitLength]. *)
Theorem generateCommitSummary_absorbs_delegate_failure
  (logger : FallibleLog.Logger) (ctx : Context) (h : Host)
  (sessionID : jsstring) (st : PluginState) (turn : LastTurn) :
  (forall t s e,
      snd (FallibleLog.generateCommitSummary logger h t s) = Throw e ->
      logger LInfo "Generating commit summary"%string = Throw e \/
      logger LError
        "Failed to generate commit summary using temporary session"%string
      = Throw e) /\
  (logger LInfo "Generating commit summary"%string = Normal tt ->
   logger LError
     "Failed to generate commit summary using temporary session"%string
   = Normal tt ->
   (forall t s, exists summary,
       snd (FallibleLog.generateCommitSummary logger h t s) = Normal summary) /\
   (delegate_fails h ->
    forall t s,
      snd (FallibleLog.generateCommitSummary logger h t s)
      = Normal (lit "Auto-commit"))) /\
  (FallibleLog.resolves logger ->
   delegate_fails h ->
   reaches_summary ctx h st turn ->
   let trace :=
     FallibleLog.calls
       (fst (snd (FallibleLog.event logger ctx h (session_idle sessionID) st))) in
   In GitAddAll trace /\
   (gitAdd h = Normal tt ->
    In (GitCommit
          (truncateCommitMessage
             (composeCommitMessage (lit "Auto-commit") turn)
             (maxCommitLength (settings st))))
       trace)).
Proof.
  split; [|split].
  - intros t s e He.
    destruct (generateCommitSummary_any_logger logger h t s)
      as (ts & c & Heq & _ & _ & Hthrow).
    rewrite Heq in He. cbn [snd] in He. now apply Hthrow.
  - intros Hfirst Hcatch. split.
    + intros t s.
      destruct (generateCommitSummary_any_logger logger h t s)
        as (ts & c & Heq & _ & _ & Hthrow).
      rewrite Heq. cbn [snd]. destruct c as [summary|e]; [eauto|].
      destruct (Hthrow e eq_refl) as [H|H]; congruence.
    + intros Hfail t s.
      now apply generateCommitSummary_fallback_any_logger.
  - intros Hres Hfail Hreach. cbv zeta.
    destruct (event_agrees logger Hres ctx h (session_idle sessionID) st)
      as (_ & -> & _).
    exact (event_fallback_commit ctx h sessionID st turn Hfail Hreach).
Qed.

Lemma generateCommitSummary_absorbs_delegate_failure_witness :
  snd (FallibleLog.generateCommitSummary
         (FallibleLog.rejecting "Commit summary generated")
         failing_delegate_host scenario_turn (settings enabled_state))
  = Normal (lit "Auto-commit") /\
  In (GitCommit
        (lit "Auto-commit" ++ nl ++ nl ++ lit "## User Prompt" ++ nl
         ++ lit "Add file" ++ nl ++ nl ++ lit "## LLM Response" ++ nl
         ++ lit "Done"))
     (FallibleLog.calls
        (fst (snd (FallibleLog.event FallibleLog.quiet scenario_context
                     failing_delegate_host (session_idle (lit "ses"))
                     enabled_state)))).
Proof.
  assert (Hfail : delegate_fails failing_delegate_host)
    by (apply (prompt_rejects _ (lit "tmp") HostError); reflexivity).
  split.
  - destruct (generateCommitSummary_absorbs_delegate_failure
                (FallibleLog.rejecting "Commit summary generated")
                scenario_context failing_delegate_host (lit "ses")
                enabled_state scenario_turn)
      as (_ & Hfallback & _).
    destruct (Hfallback eq_refl eq_refl) as [_ Hsummary].
    now apply Hsummary.
  - destruct (generateCommitSummary_absorbs_delegate_failure
                FallibleLog.quiet scenario_context failing_delegate_host
                (lit "ses") enabled_state scenario_turn)
      as (_ & _ & Hcommit).
    apply Hcommit; [intros level message; reflexivity | exact Hfail | |
                    reflexivity].
    repeat split; reflexivity.
Defined.

(** C9 as stated fails: a rejected log entry gets out of
    [generateCommitSummary].  The entry before the [try] rejecting, the
    function throws although the delegate is healthy; the delegate
    failing and the entry of the [catch] block rejecting, it throws
    instead of returning the fallback, and the handler, which catches
    the error, makes no commit attempt. *)
Lemma generateCommitSummary_log_rejection_counterexample :
  snd (FallibleLog.generateCommitSummary
         (FallibleLog.rejecting "Generating commit summary")
         scenario_host scenario_turn (settings enabled_state))
  = Throw HostError /\
  delegate_fails failing_delegate_host /\
  snd (FallibleLog.generateCommitSummary
         (FallibleLog.rejecting
            "Failed to generate commit summary using temporary session")
         failing_delegate_host scenario_turn (settings enabled_state))
  = Throw HostError /\
  commit_attempts
    (FallibleLog.calls
       (fst (snd (FallibleLog.event
                    (FallibleLog.rejecting
                       "Failed to generate commit summary using temporary session")
                    scenario_context failing_delegate_host
                    (session_idle (lit "ses")) enabled_state))))
  = 0.
Proof.
  split; [reflexivity|]. split; [|split; reflexivity].
  apply (prompt_rejects _ (lit "tmp") HostError); reflexivity.
Qed.

(** ** What escapes, and what does not *)

(** X10. [makeCommit] under any logger: it runs [git add -A] at most
    once; it runs [git commit] only after a staging that succeeded and
    only with the message it was given; it answers true only when both
    git commands succeeded; and it throws only the error of a rejected
    log entry of one of its two [catch] blocks, never the error of a
    git command.  With a logger that resolves it never throws, stages
    exactly once, and answers true exactly when both git commands
    succeeded. *)
Theorem makeCommit_outcome_any_logger (logger : FallibleLog.Logger) (h : Host)
  (message : jsstring) :
  let r := FallibleLog.makeCommit logger h message in
  (commit_attempts (fst r) <= 1)%nat /\
  (forall m, In (GitCommit m) (fst r) -> m = message /\ gitAdd h = Normal tt) /\
  (snd r = Normal true -> gitAdd h = Normal tt /\ gitCommit h = Normal tt) /\
  (forall e, snd r = Throw e ->
     logger LError "Failed to stage changes"%string = Throw e \/
     logger LError "Failed to commit changes"%string = Throw e) /\
  (FallibleLog.resolves logger ->
   commit_attempts (fst r) = 1 /\
   (exists b, snd r = Normal b) /\
   (gitAdd h = Normal tt /\ gitCommit h = Normal tt -> snd r = Normal true)).
Proof.
  cbv zeta.
  destruct (makeCommit_any_logger logger h message)
    as (t & c & Heq & Hn & Hcommit & Htrue & Hthrow).
  rewrite Heq. cbn [fst snd].
  repeat (split; [assumption|]).
  intros Hres. rewrite (makeCommit_agrees logger Hres h message) in Heq.
  destruct (makeCommit_returns h message) as (t0 & b & Heq0 & Hone & _).
  rewrite Heq0 in Heq. injection Heq as <- <-.
  split; [exact Hone|]. split; [eauto|].
  intros [Hadd Hgit]. revert Heq0. unfold makeCommit, call.
  rewrite Hadd, Hgit. cbn. now intros [= _ <-].
Qed.

(** X13. A [session.idle] run under any logger throws only the error
    of the session query, rejected past the mode gate, or the error of
    a rejected log entry: no failure of git, of the summary delegate or
    of the commit gets out of the handler.  With a logger that
    resolves, the run throws exactly when it got past the mode gate and
    the session query rejected. *)
Theorem event_throws_only_query_or_log (logger : FallibleLog.Logger)
  (ctx : Context) (h : Host) (sessionID : jsstring) (st : PluginState)
  (e : Exn) :
  let completion :=
    snd (snd (FallibleLog.event logger ctx h (session_idle sessionID) st)) in
  (completion = Throw e ->
   (passes_gate ctx h st /\ sessionMessages h = Throw e) \/
   exists level message, logger level message = Throw e) /\
  (FallibleLog.resolves logger ->
   (completion = Throw e <->
    passes_gate ctx h st /\ sessionMessages h = Throw e)).
Proof.
  cbv zeta.
  assert (Honly :
            snd (snd (FallibleLog.event logger ctx h (session_idle sessionID) st))
            = Throw e ->
            (passes_gate ctx h st /\ sessionMessages h = Throw e) \/
            exists level message, logger level message = Throw e).
  { destruct (event_any_logger logger ctx h sessionID st)
      as [(t & c & -> & _ & Hthrow & _) |
          (turn & before & after & c & _ & _ & _ & -> & _ & _ & _ & Hthrow)];
      cbn [fst snd]; intros Hc; [now apply Hthrow | right; now apply Hthrow]. }
  split; [exact Honly|].
  intros Hres. split.
  - intros Hc. destruct (Honly Hc) as [Hq | (level & message & Hrej)];
      [exact Hq|]. rewrite Hres in Hrej. discriminate.
  - intros [Hgate Hq].
    destruct (event_agrees logger Hres ctx h (session_idle sessionID) st)
      as (_ & _ & ->).
    rewrite (event_past_gate ctx h sessionID st Hgate), Hq. reflexivity.
Qed.

(** ** Reset under any logger *)

Lemma loadSettingsFromFile_any_logger (logger : FallibleLog.Logger) (h : Host) :
  exists t c,
    FallibleLog.loadSettingsFromFile logger h = (t, c) /\
    (forall e, c = Throw e ->
               logger LError "Failed to load settings file"%string = Throw e).
Proof.
  unfold FallibleLog.loadSettingsFromFile, FallibleLog.log, call, liftC.
  destruct (logger LError "Failed to load settings file"%string)
    as [[]|e0] eqn:Hcatch;
    destruct (settingsFile h) as [doc|e1]; cbn;
    try (destruct (ZAutoCommitSettings_partial_parse doc) as [p|e2]; cbn;
         try (destruct (logger LInfo "Loaded settings from file"%string)
                as [[]|e3]; cbn));
    do 2 eexists; (split; [reflexivity|]);
    intros e4 He4; try discriminate; injection He4 as <-; reflexivity.
Qed.

Lemma resetSettingsTool_any_logger (logger : FallibleLog.Logger) (h : Host)
  (st : PluginState) :
  exists t c,
    FallibleLog.loadSettingsFromFile logger h = (t, c) /\
    FallibleLog.resetSettingsTool logger h st
    = match c with
      | Normal fileSettings =>
          let merged := Object_assign (settings st) (defaults_with fileSettings) in
          ({| settings := merged; lastCommittedTurnID := lastCommittedTurnID st |},
           (map FallibleLog.Called t, Normal merged))
      | Throw e =>
          (st, (map FallibleLog.Called t,
                Throw (ErrorFrom "Failed to reset settings: " e)))
      end.
Proof.
  destruct (FallibleLog.loadSettingsFromFile logger h) as [t c] eqn:Hload.
  exists t, c. split; [reflexivity|].
  unfold FallibleLog.resetSettingsTool, FallibleLog.try_catchM, FallibleLog.bindM,
    FallibleLog.lift, FallibleLog.get_settings, FallibleLog.set_settings,
    FallibleLog.throwM.
  rewrite Hload. destruct c as [fileSettings|e]; cbn; now rewrite ?app_nil_r.
Qed.

(** X22. [resetAutoCommitSettings] under any logger.  It throws only
    when the log entry of the [catch] block of [loadSettingsFromFile]
    rejects; the error is then wrapped as "Failed to reset settings"
    and the settings are left as they were.  When it completes, the
    mode and [maxCommitLength] it leaves do not depend on the settings
    of before, so that a preceding [setAutoCommitSettings] is undone
    for these two keys.  Against the same host a second reset changes
    nothing. *)
Theorem resetSettingsTool_composition_any_logger (logger : FallibleLog.Logger)
  (h : Host) (args : ToolArgs) (st : PluginState) :
  let reset := FallibleLog.resetSettingsTool logger h in
  (forall e, snd (snd (reset st)) = Throw e ->
     fst (reset st) = st /\
     exists cause,
       e = ErrorFrom "Failed to reset settings: " cause /\
       logger LError "Failed to load settings file"%string = Throw cause) /\
  (forall s, snd (snd (reset st)) = Normal s ->
     s = settings (fst (reset st)) /\
     mode (settings (fst (reset (state_after (setSettingsTool args st)))))
     = mode s /\
     maxCommitLength (settings (fst (reset (state_after (setSettingsTool args st)))))
     = maxCommitLength s) /\
  fst (reset (fst (reset st))) = fst (reset st).
Proof.
  cbv zeta.
  destruct (loadSettingsFromFile_any_logger logger h) as (t & c & Hload & Hthrow).
  destruct (resetSettingsTool_any_logger logger h st) as (t1 & c1 & Hl1 & Hr1).
  destruct (resetSettingsTool_any_logger logger h
              (state_after (setSettingsTool args st))) as (t2 & c2 & Hl2 & Hr2).
  destruct (resetSettingsTool_any_logger logger h
              (fst (FallibleLog.resetSettingsTool logger h st)))
    as (t3 & c3 & Hl3 & Hr3).
  rewrite Hload in Hl1, Hl2, Hl3.
  injection Hl1 as <- <-. injection Hl2 as <- <-. injection Hl3 as <- <-.
  rewrite Hr3, Hr2, Hr1. clear Hr1 Hr2 Hr3.
  destruct c as [fileSettings|cause]; cbn [fst snd settings lastCommittedTurnID].
  - split; [discriminate|]. split.
    + intros s [= <-]. split; [reflexivity|].
      destruct fileSettings as [f|]; split; reflexivity.
    + f_equal. unfold Object_assign, defaults_with.
      destruct fileSettings as [f|]; cbn; [|reflexivity].
      destruct (p_commitModel f); reflexivity.
  - split; [|split; [discriminate | reflexivity]].
    intros e [= <-]. split; [reflexivity|].
    exists cause. split; [reflexivity | now apply Hthrow].
Qed.
